(** * Chrome DevTools client of the terminal/browser server

    A shallow embedding of [backend/mcp_servers/terminal_browser/server.py]:
    the class [ChromeDevTools] (request/reply correlation over one socket,
    the command wrappers, click, type, evaluate, screenshot with overlays) and
    the browser tools of [TerminalBrowserServer].

    Conventions.
    - A Python [str] is a Rocq [string]; a character stands for a code point
      below 256.
    - A value read off the wire by [json.loads] is a [json]; a JSON number is
      a rational (Python's int/float distinction, rounding, NaN and the
      infinities are not represented).
    - A [dict] with string keys is an association list read by its first
      binding; the table [self.responses], keyed by reply ids, is a [gmap].
    - A coroutine is a function from the state before to an outcome (a value
      or a raised exception) and the state after.  The receive task
      [_listen] runs only while a caller is suspended in an [await]; the
      frames it reads at each suspension are taken from a schedule kept with
      the socket.
    - The socket is taken as open and [_ensure_cdp] as done: target
      discovery, the handshake and a send on a closed socket are not
      represented. *)

From Stdlib Require Import ZArith QArith Qminmax String Ascii List Sorted Lia Bool.
From stdpp Require Import base decidable countable gmap strings list pretty.

Set Warnings "-register-all".

Local Open Scope string_scope.
Local Open Scope Z_scope.

(** ** Python values and the operations the source applies to them *)

Module Py.

Inductive json : Type :=
| JNull
| JBool (b : bool)
| JNum (q : Q)
| JStr (s : string)
| JArr (l : list json)
| JObj (d : list (string * json)).

(** Exceptions by class.  [EnvError] is whatever a collaborator outside the
    repository raises (the file system, the vision model, Pillow, base64). *)
Inductive pyexc : Type :=
| TimeoutError (msg : string)
| KeyError
| IndexError
| TypeError
| AttributeError
| ValueError
| EnvError (msg : string).

Definition result (A : Type) : Type := pyexc + A.

Definition JInt (z : Z) : json := JNum (inject_Z z).

(** [d[k]] / [k in d] on a dict with string keys. *)
Fixpoint dict_get (k : string) (d : list (string * json)) : option json :=
  match d with
  | [] => None
  | (k', v) :: d' => if String.eqb k k' then Some v else dict_get k d'
  end.

(** [needle in hay] on two strings: substring test. *)
Fixpoint substring_of (needle hay : string) : bool :=
  String.prefix needle hay ||
  match hay with
  | EmptyString => false
  | String _ hay' => substring_of needle hay'
  end.

(** [k in x] for a string [k]. *)
Definition contains (k : string) (x : json) : result bool :=
  match x with
  | JObj d => inr (bool_decide (is_Some (dict_get k d)))
  | JArr l => inr (existsb (fun e => match e with JStr s => String.eqb s k | _ => false end) l)
  | JStr s => inr (substring_of k s)
  | JNull | JBool _ | JNum _ => inl TypeError
  end.

(** [x[k]] for a string [k]. *)
Definition getitem (x : json) (k : string) : result json :=
  match x with
  | JObj d => match dict_get k d with Some v => inr v | None => inl KeyError end
  | _ => inl TypeError
  end.

(** [x.get(k)] and [x.get(k, default)]. *)
Definition get (x : json) (k : string) (default : json) : result json :=
  match x with
  | JObj d => inr (match dict_get k d with Some v => v | None => default end)
  | _ => inl AttributeError
  end.

(** [x[i]] for an integer [i >= 0]. *)
Definition index (x : json) (i : nat) : result json :=
  match x with
  | JArr l => match l !! i with Some v => inr v | None => inl IndexError end
  | JStr s => match String.get i s with Some c => inr (JStr (String c EmptyString)) | None => inl IndexError end
  | JObj _ => inl KeyError
  | JNull | JBool _ | JNum _ => inl TypeError
  end.

(** [len(x)]. *)
Definition len (x : json) : result Z :=
  match x with
  | JArr l => inr (Z.of_nat (List.length l))
  | JStr s => inr (Z.of_nat (String.length s))
  | JObj d => inr (Z.of_nat (List.length d))
  | JNull | JBool _ | JNum _ => inl TypeError
  end.

(** Truth value, as [not x] reads it. *)
Definition truthy (x : json) : bool :=
  match x with
  | JNull => false
  | JBool b => b
  | JNum q => negb (Qeq_bool q 0)
  | JStr s => negb (String.eqb s "")
  | JArr l => match l with [] => false | _ => true end
  | JObj d => match d with [] => false | _ => true end
  end.

Definition as_number (x : json) : option Q :=
  match x with
  | JNum q => Some q
  | JBool b => Some (if b then 1%Q else 0%Q)
  | _ => None
  end.

(** [a + b]: numbers add (a bool counts as 0 or 1), strings and lists
    concatenate. *)
Definition add (a b : json) : result json :=
  match as_number a, as_number b with
  | Some x, Some y => inr (JNum (Qred (x + y)))
  | _, _ =>
      match a, b with
      | JStr s, JStr t => inr (JStr (s ++ t))
      | JArr l, JArr m => inr (JArr (l ++ m))
      | _, _ => inl TypeError
      end
  end.

(** [a / 2]. *)
Definition half (a : json) : result json :=
  match as_number a with
  | Some x => inr (JNum (Qred (x / 2)))
  | None => inl TypeError
  end.

(** *** [int(s)] on a string

    Surrounding whitespace is stripped (tab to carriage return and the
    space; of the code points from 128 on, next-line and the no-break
    space), one sign is allowed, and the digits may be grouped by single
    underscores.  [max_str_digits] is the interpreter's limit on the number
    of digits ([sys.get_int_max_str_digits], 0 when there is none). *)

Definition is_space (c : ascii) : bool :=
  let n := N_of_ascii c in
  ((9 <=? n) && (n <=? 13) || (n =? 32) || (n =? 133) || (n =? 160))%N.

Definition is_digit (c : ascii) : bool :=
  let n := N_of_ascii c in ((48 <=? n) && (n <=? 57))%N.

Definition digit_value (c : ascii) : Z := Z.of_N (N_of_ascii c) - 48.

Fixpoint lstrip (s : string) : string :=
  match s with
  | String c s' => if is_space c then lstrip s' else s
  | EmptyString => s
  end.

Fixpoint rstrip (s : string) : string :=
  match s with
  | String c s' =>
      match rstrip s' with
      | EmptyString => if is_space c then EmptyString else String c EmptyString
      | r => String c r
      end
  | EmptyString => EmptyString
  end.

Definition strip (s : string) : string := rstrip (lstrip s).

(** The digits after the first: [after_underscore] holds when the previous
    character was an underscore. *)
Fixpoint more_digits (after_underscore : bool) (acc : Z) (s : string) : option Z :=
  match s with
  | EmptyString => if after_underscore then None else Some acc
  | String c s' =>
      if is_digit c then more_digits false (10 * acc + digit_value c) s'
      else if Ascii.eqb c "_" then
        (if after_underscore then None else more_digits true acc s')
      else None
  end.

Definition digits (s : string) : option Z :=
  match s with
  | String c s' => if is_digit c then more_digits false (digit_value c) s' else None
  | EmptyString => None
  end.

Fixpoint count_digits (s : string) : nat :=
  match s with
  | String c s' => (if is_digit c then 1 else 0) + count_digits s'
  | EmptyString => 0
  end%nat.

Definition within_digit_limit (max_str_digits : nat) (s : string) : bool :=
  (max_str_digits =? 0)%nat || (count_digits s <=? max_str_digits)%nat.

(** [None] stands for [ValueError]. *)
Definition int_of_string (max_str_digits : nat) (s : string) : option Z :=
  let body := strip s in
  let signed (negative : bool) (ds : string) :=
    match digits ds with
    | Some n =>
        if within_digit_limit max_str_digits ds
        then Some (if negative then - n else n)
        else None
    | None => None
    end in
  match body with
  | String "-" ds => signed true ds
  | String "+" ds => signed false ds
  | ds => signed false ds
  end.

(** [int(x)]: a number is truncated toward zero. *)
Definition int (max_str_digits : nat) (x : json) : result Z :=
  match x with
  | JNum q => inr (Z.quot (Qnum q) (Z.pos (Qden q)))
  | JBool b => inr (if b then 1 else 0)
  | JStr s => match int_of_string max_str_digits s with Some n => inr n | None => inl ValueError end
  | JNull | JArr _ | JObj _ => inl TypeError
  end.

(** [s.split(sep)] for a one-character separator. *)
Fixpoint split (sep : ascii) (s : string) : list string :=
  match s with
  | EmptyString => [EmptyString]
  | String c s' =>
      if Ascii.eqb c sep then EmptyString :: split sep s'
      else match split sep s' with
           | w :: ws => String c w :: ws
           | [] => [String c EmptyString]
           end
  end.

Definition startswith (s p : string) : bool := String.prefix p s.

(** *** Keys of [self.responses]

    A dict key is compared by value: [1], [1.0] and [True] are one key.
    Lists and dicts cannot be keys. *)

Inductive key : Type :=
| KNum (num : Z) (den : positive)
| KStr (s : string)
| KNone.

#[global] Instance key_eq_dec : EqDecision key.
Proof. solve_decision. Defined.

Definition key_to_sum (k : key) : (Z * positive) + string + unit :=
  match k with
  | KNum n d => inl (inl (n, d))
  | KStr s => inl (inr s)
  | KNone => inr tt
  end.

Definition key_of_sum (x : (Z * positive) + string + unit) : key :=
  match x with
  | inl (inl (n, d)) => KNum n d
  | inl (inr s) => KStr s
  | inr _ => KNone
  end.

#[global] Instance key_countable : Countable key.
Proof. apply (inj_countable' key_to_sum key_of_sum). by intros []. Defined.

Definition int_key (z : Z) : key := KNum z 1.

(** [None] stands for [TypeError: unhashable type]. *)
Definition hash_key (x : json) : option key :=
  match x with
  | JNull => Some KNone
  | JBool b => Some (int_key (if b then 1 else 0))
  | JNum q => Some (KNum (Qnum (Qred q)) (Qden (Qred q)))
  | JStr s => Some (KStr s)
  | JArr _ | JObj _ => None
  end.

(** [for el in x]: the items a loop over [x] visits (a dict yields its keys,
    a string its characters). *)
Definition iterate (x : json) : result (list json) :=
  match x with
  | JArr l => inr l
  | JStr s => inr (map (fun c => JStr (String c EmptyString)) (list_ascii_of_string s))
  | JObj d => inr (map (fun kv => JStr (fst kv)) d)
  | JNull | JBool _ | JNum _ => inl TypeError
  end.

(** [x == s] for a string [s]. *)
Definition equals_string (x : json) (s : string) : bool :=
  match x with
  | JStr t => String.eqb t s
  | _ => false
  end.

(** [x.startswith(p)]. *)
Definition str_startswith (x : json) (p : string) : result bool :=
  match x with
  | JStr s => inr (startswith s p)
  | _ => inl AttributeError
  end.

(** A list comprehension whose body may raise. *)
Fixpoint comprehension {A B : Type} (f : A -> result B) (l : list A) : result (list B) :=
  match l with
  | [] => inr []
  | a :: l' =>
      match f a with
      | inl e => inl e
      | inr b => match comprehension f l' with
                 | inl e => inl e
                 | inr bs => inr (b :: bs)
                 end
      end
  end.

End Py.

Import Py.

(** ** Coroutines: state and exceptions

    [M S A]: a computation over a state [S] that returns an [A] or raises.
    A raise keeps the state reached so far (Python rolls nothing back). *)

Definition M (S A : Type) : Type := S -> result A * S.

Definition ret {S A} (a : A) : M S A := fun st => (inr a, st).

Definition raise {S A} (e : pyexc) : M S A := fun st => (inl e, st).

Definition bind {S A B} (m : M S A) (k : A -> M S B) : M S B :=
  fun st => match m st with
            | (inr a, st') => k a st'
            | (inl e, st') => (inl e, st')
            end.

(** [try: m except Exception as e: h e]. *)
Definition catch {S A} (m : M S A) (h : pyexc -> M S A) : M S A :=
  fun st => match m st with
            | (inr a, st') => (inr a, st')
            | (inl e, st') => h e st'
            end.

Definition lift {S A} (r : result A) : M S A := fun st => (r, st).

Definition gets {S A} (f : S -> A) : M S A := fun st => (inr (f st), st).

Definition modify {S} (f : S -> S) : M S unit := fun st => (inr tt, f st).

(** A computation that leaves the state as it is. *)
Definition unchanged {S A : Type} (m : M S A) : Prop := forall st, snd (m st) = st.

Notation "'let!' x ':=' m 'in' k" := (bind m (fun x => k))
  (at level 10, x pattern, m at level 100, k at level 200).

(** ** The client object *)

(** A frame as the receive loop gets it: text that [json.loads] parses, or
    text that it rejects. *)
Inductive ws_message : Type :=
| Text (data : json)
| Malformed.

(** [ChromeDevTools.__init__]: [message_id], [responses], [events]; and the
    socket [ws]: the frames written to it (oldest first), the frames it will
    hand to the receive task at each coming suspension of a caller, and
    whether the receive task is still running. *)
Record ChromeDevTools : Type := mkChromeDevTools {
  message_id : Z;
  responses : gmap key json;
  events : list json;
  ws_sent : list json;
  ws_incoming : list (list ws_message);
  listening : bool
}.

Definition connected (incoming : list (list ws_message)) : ChromeDevTools :=
  {| message_id := 0; responses := ∅; events := []; ws_sent := [];
     ws_incoming := incoming; listening := true |}.

Definition set_message_id (n : Z) (c : ChromeDevTools) : ChromeDevTools :=
  {| message_id := n; responses := responses c; events := events c;
     ws_sent := ws_sent c; ws_incoming := ws_incoming c; listening := listening c |}.

Definition set_responses (r : gmap key json) (c : ChromeDevTools) : ChromeDevTools :=
  {| message_id := message_id c; responses := r; events := events c;
     ws_sent := ws_sent c; ws_incoming := ws_incoming c; listening := listening c |}.

Definition set_events (e : list json) (c : ChromeDevTools) : ChromeDevTools :=
  {| message_id := message_id c; responses := responses c; events := e;
     ws_sent := ws_sent c; ws_incoming := ws_incoming c; listening := listening c |}.

Definition set_ws_sent (s : list json) (c : ChromeDevTools) : ChromeDevTools :=
  {| message_id := message_id c; responses := responses c; events := events c;
     ws_sent := s; ws_incoming := ws_incoming c; listening := listening c |}.

Definition set_ws_incoming (i : list (list ws_message)) (c : ChromeDevTools) : ChromeDevTools :=
  {| message_id := message_id c; responses := responses c; events := events c;
     ws_sent := ws_sent c; ws_incoming := i; listening := listening c |}.

Definition stop_listening (c : ChromeDevTools) : ChromeDevTools :=
  {| message_id := message_id c; responses := responses c; events := events c;
     ws_sent := ws_sent c; ws_incoming := ws_incoming c; listening := false |}.

(** The body of the loop of [_listen] for one frame.  An exception ends the
    task: [json.loads] on malformed text, ['id' in data] on a number, a
    bool or null, [data['id']] on a list or a string, and an id that cannot
    be a dict key. *)
Definition listen_frame (m : ws_message) (c : ChromeDevTools) : ChromeDevTools :=
  match m with
  | Malformed => stop_listening c
  | Text data =>
      match contains "id" data with
      | inl _ => stop_listening c
      | inr true =>
          match getitem data "id" with
          | inl _ => stop_listening c
          | inr id =>
              match hash_key id with
              | None => stop_listening c
              | Some k => set_responses (<[k := data]> (responses c)) c
              end
          end
      | inr false => set_events (events c ++ [data]) c
      end
  end.

(** [_listen] over the frames that arrive during one suspension. *)
Fixpoint _listen (batch : list ws_message) (c : ChromeDevTools) : ChromeDevTools :=
  match batch with
  | [] => c
  | m :: batch' => if listening c then _listen batch' (listen_frame m c) else c
  end.

(** A caller awaits: the receive task runs on what has arrived. *)
Definition suspend (c : ChromeDevTools) : ChromeDevTools :=
  match ws_incoming c with
  | [] => c
  | batch :: later => _listen batch (set_ws_incoming later c)
  end.

(** The frame [send_command] writes ([params or {}]). *)
Definition request (msg_id : Z) (method : string) (params : option (list (string * json))) : json :=
  JObj [("id", JInt msg_id); ("method", JStr method);
        ("params", JObj (match params with Some p => p | None => [] end))].

(** [self.message_id += 1; msg_id = self.message_id]. *)
Definition next_message_id : M ChromeDevTools Z :=
  fun c => let n := message_id c + 1 in (inr n, set_message_id n c).

(** [await self.ws.send(json.dumps(message))]. *)
Definition ws_send (frame : json) : M ChromeDevTools unit :=
  modify (fun c => suspend (set_ws_sent (ws_sent c ++ [frame]) c)).

(** [await asyncio.sleep(0.1)]. *)
Definition sleep : M ChromeDevTools unit := modify suspend.

(** [self.responses.pop(msg_id)]. *)
Definition pop_response (msg_id : Z) (c : ChromeDevTools) : ChromeDevTools :=
  set_responses (delete (int_key msg_id) (responses c)) c.

(** The wait loop of [send_command]: [polls] rounds of test-then-sleep. *)
Fixpoint wait_response (polls : nat) (method : string) (msg_id : Z) : M ChromeDevTools json :=
  match polls with
  | O => raise (TimeoutError ("No response for " ++ method))
  | S polls' =>
      fun c =>
        match responses c !! int_key msg_id with
        | Some reply => (inr reply, pop_response msg_id c)
        | None => (let! _ := sleep in wait_response polls' method msg_id) c
        end
  end.

Definition send_command (method : string) (params : option (list (string * json))) : M ChromeDevTools json :=
  let! msg_id := next_message_id in
  let! _ := ws_send (request msg_id method params) in
  wait_response 100 method msg_id.

Definition navigate (url : string) : M ChromeDevTools json :=
  let! result := send_command "Page.navigate" (Some [("url", JStr url)]) in
  let! _ := send_command "Page.loadEventFired" None in
  ret result.

(** The JavaScript that [get_interactive_elements] sends; its text (lines
    106-135 of the source) plays no part in the client's own behaviour and
    is abbreviated. *)
Definition interactive_elements_script : string := "(() => { ... return elements; })()".

Definition get_interactive_elements : M ChromeDevTools json :=
  let! result := send_command "Runtime.evaluate"
                   (Some [("expression", JStr interactive_elements_script);
                          ("returnByValue", JBool true)]) in
  let! r := lift (getitem result "result") in
  lift (get r "value" (JArr [])).

Definition get_dom : M ChromeDevTools json :=
  let! result := send_command "DOM.getDocument" None in
  lift (getitem result "result").

Definition query_selector (selector : json) : M ChromeDevTools json :=
  let! doc := get_dom in
  let! root := lift (getitem doc "root") in
  let! root_id := lift (getitem root "nodeId") in
  let! result := send_command "DOM.querySelector"
                   (Some [("nodeId", root_id); ("selector", selector)]) in
  let! r := lift (getitem result "result") in
  lift (get r "nodeId" JNull).

(** The dict a tool hands back: [{"success": True, ...}], or
    [{"success": False, "error": text}] with the text the source builds. *)
Inductive failure : Type :=
| ElementNotFound (selector : json)
    (* f"Element not found: {selector}" *)
| ElementNumberNotFound (element_num : Z)
    (* f"Element number {element_num} not found. Take a screenshot first." *)
| InvalidElementNumber (selector : string)
    (* f"Invalid element number format: {selector}" *)
| ScriptException (text : json)
    (* result['result']['exceptionDetails']['text'] *)
| Caught (e : pyexc).
    (* str(e) *)

Inductive tool_result : Type :=
| Succeeded (fields : list (string * json))
| Failed (why : failure).

Definition mouse_event (type : string) (x y : json) : option (list (string * json)) :=
  Some [("type", JStr type); ("x", x); ("y", y); ("button", JStr "left"); ("clickCount", JInt 1)].

(** [x = (box[0] + box[2]) / 2; y = (box[1] + box[5]) / 2]. *)
Definition click_point (box : json) : result (json * json) :=
  match index box 0 with inl e => inl e | inr b0 =>
  match index box 2 with inl e => inl e | inr b2 =>
  match add b0 b2 with inl e => inl e | inr sx =>
  match half sx with inl e => inl e | inr x =>
  match index box 1 with inl e => inl e | inr b1 =>
  match index box 5 with inl e => inl e | inr b5 =>
  match add b1 b5 with inl e => inl e | inr sy =>
  match half sy with inl e => inl e | inr y => inr (x, y)
  end end end end end end end end.

Definition click (selector : json) : M ChromeDevTools tool_result :=
  let! node_id := query_selector selector in
  if negb (truthy node_id) then ret (Failed (ElementNotFound selector))
  else
    let! result := send_command "DOM.getBoxModel" (Some [("nodeId", node_id)]) in
    let! r := lift (getitem result "result") in
    let! model := lift (getitem r "model") in
    let! box := lift (getitem model "content") in
    let! xy := lift (click_point box) in
    let! _ := send_command "Input.dispatchMouseEvent" (mouse_event "mousePressed" (fst xy) (snd xy)) in
    let! _ := send_command "Input.dispatchMouseEvent" (mouse_event "mouseReleased" (fst xy) (snd xy)) in
    ret (Succeeded [("success", JBool true); ("selector", selector)]).

Definition key_event (char : ascii) : option (list (string * json)) :=
  Some [("type", JStr "char"); ("text", JStr (String char EmptyString))].

(** [for char in text: await self.send_command("Input.dispatchKeyEvent", ...)]. *)
Fixpoint type_chars (text : string) : M ChromeDevTools unit :=
  match text with
  | EmptyString => ret tt
  | String char text' =>
      let! _ := send_command "Input.dispatchKeyEvent" (key_event char) in
      type_chars text'
  end.

Definition type_text (selector : json) (text : string) : M ChromeDevTools tool_result :=
  let! node_id := query_selector selector in
  if negb (truthy node_id) then ret (Failed (ElementNotFound selector))
  else
    let! _ := send_command "DOM.focus" (Some [("nodeId", node_id)]) in
    let! _ := type_chars text in
    ret (Succeeded [("success", JBool true); ("selector", selector); ("text", JStr text)]).

(** What [execute_script] makes of the reply to its [Runtime.evaluate]. *)
Definition script_outcome (reply : json) : result tool_result :=
  match getitem reply "result" with inl e => inl e | inr r =>
  match contains "exceptionDetails" r with inl e => inl e | inr raised =>
    if raised then
      match getitem r "exceptionDetails" with inl e => inl e | inr details =>
      match getitem details "text" with inl e => inl e | inr text =>
        inr (Failed (ScriptException text))
      end end
    else
      match get r "value" JNull with inl e => inl e | inr value =>
        inr (Succeeded [("success", JBool true); ("result", value)])
      end
  end end.

Definition execute_script (script : string) : M ChromeDevTools tool_result :=
  let! result := send_command "Runtime.evaluate"
                   (Some [("expression", JStr script); ("returnByValue", JBool true)]) in
  lift (script_outcome result).

Definition get_content : M ChromeDevTools json :=
  let! doc := get_dom in
  let! root := lift (getitem doc "root") in
  let! root_id := lift (getitem root "nodeId") in
  let! result := send_command "DOM.getOuterHTML" (Some [("nodeId", root_id)]) in
  let! r := lift (getitem result "result") in
  lift (getitem r "outerHTML").

(** ** The correlator as a transition system

    Every way the fields of a [ChromeDevTools] object change while any number
    of callers share it: a caller runs lines 79-88 of [send_command] up to
    its [await] ([Allocate]); some caller is suspended and the receive task
    runs ([Suspend]); a waiting caller finds its reply and pops it
    ([Deliver]); a caller gives up after its last poll ([GiveUp]). *)

Inductive action : Type :=
| Allocate (msg_id : Z)
| Suspend
| Deliver (msg_id : Z) (reply : json)
| GiveUp (msg_id : Z).

Inductive step : ChromeDevTools -> action -> ChromeDevTools -> Prop :=
| step_allocate c method params :
    step c (Allocate (message_id c + 1))
      (set_ws_sent (ws_sent c ++ [request (message_id c + 1) method params])
         (set_message_id (message_id c + 1) c))
| step_suspend c :
    step c Suspend (suspend c)
| step_deliver c msg_id reply :
    responses c !! int_key msg_id = Some reply ->
    step c (Deliver msg_id reply) (pop_response msg_id c)
| step_give_up c msg_id :
    step c (GiveUp msg_id) c.

Inductive run : ChromeDevTools -> list action -> ChromeDevTools -> Prop :=
| run_done c : run c [] c
| run_step c a c' acts c'' : step c a c' -> run c' acts c'' -> run c (a :: acts) c''.

(** The ids handed out along a run, in order. *)
Fixpoint allocated (acts : list action) : list Z :=
  match acts with
  | [] => []
  | Allocate msg_id :: acts' => msg_id :: allocated acts'
  | _ :: acts' => allocated acts'
  end.

(** Several calls one after the other, each by a caller of its own: a call
    that raises does not stop the next. *)
Fixpoint send_commands (cmds : list (string * option (list (string * json))))
    (c : ChromeDevTools) : list (result json) * ChromeDevTools :=
  match cmds with
  | [] => ([], c)
  | (method, params) :: cmds' =>
      match send_command method params c with
      | (r, c') =>
          match send_commands cmds' c' with
          | (rs, c'') => (r :: rs, c'')
          end
      end
  end.

(** The key a reply frame is filed under, when the receive loop files it. *)
Definition frame_key (data : json) : option key :=
  match getitem data "id" with
  | inr id => hash_key id
  | inl _ => None
  end.

Definition message_key (m : ws_message) : option key :=
  match m with
  | Text data => frame_key data
  | Malformed => None
  end.

(** Every stored frame sits under the key of its own id. *)
Definition filed_under_own_id (c : ChromeDevTools) : Prop :=
  forall k data, responses c !! k = Some data -> frame_key data = Some k.


(** ** The host: what the server calls outside the repository *)

Inductive image_format : Type := PNG | JPEG | GIF | BMP | WEBP.

(** The part of Pillow that [_add_overlays] calls, over the host's type of
    byte buffers.  An [Image] is the object [Image.open] returns; drawing
    yields the image as drawn on.  The fill, outline and width of the
    ellipse and the fill of the text are the constants of the source; the
    font (DejaVu Sans Bold 16, else Pillow's default) is behind [textbbox]
    and [text]. *)
Record Pillow (bytes : Type) : Type := {
  Image : Type;
  Image_open : bytes -> result Image;
    (* Image.open(io.BytesIO(b)) *)
  Image_format : Image -> image_format;
    (* image.format: the format of the file the image was read from *)
  Image_size : Image -> Z * Z;
    (* image.size *)
  ImageDraw_Draw : Image -> result unit;
    (* ImageDraw.Draw(image, 'RGBA') *)
  ellipse : Image -> (Z * Z) * (Z * Z) -> Image;
    (* draw.ellipse(box, fill=(0, 123, 255, 200), outline=(255, 255, 255, 255), width=2) *)
  textbbox : string -> Z * Z * Z * Z;
    (* draw.textbbox((0, 0), text, font=font) *)
  text : Image -> Z * Z -> string -> Image;
    (* draw.text(xy, text, fill=(255, 255, 255, 255), font=font) *)
  save : Image -> image_format -> bytes
    (* image.save(output, format=...); output.getvalue() *)
}.

Arguments Image {bytes} _.
Arguments Image_open {bytes} _ _.
Arguments Image_format {bytes} _ _.
Arguments Image_size {bytes} _ _.
Arguments ImageDraw_Draw {bytes} _ _.
Arguments ellipse {bytes} _ _ _.
Arguments textbbox {bytes} _ _.
Arguments text {bytes} _ _ _ _.
Arguments save {bytes} _ _ _.

(** What Pillow promises and the overlay relies on: drawing keeps the size,
    and a saved image reads back in the format it was saved in, at its
    size. *)
Record PillowLaws {bytes : Type} (pil : Pillow bytes) : Prop := {
  ellipse_size : forall im box, Image_size pil (ellipse pil im box) = Image_size pil im;
  text_size : forall im xy s, Image_size pil (text pil im xy s) = Image_size pil im;
  open_save : forall im fmt, exists im',
      Image_open pil (save pil im fmt) = inr im'
      /\ Image_format pil im' = fmt
      /\ Image_size pil im' = Image_size pil im
}.

(** The interpreter and the libraries around the server. *)
Record Host : Type := {
  max_str_digits : nat;
    (* sys.get_int_max_str_digits() *)
  bytes : Type;
  b64decode : json -> result bytes;
    (* base64.b64decode *)
  b64encode : bytes -> string;
    (* base64.b64encode(b).decode() *)
  pillow : Pillow bytes;
  write_file : string -> bytes -> result unit;
    (* with open(path, "wb") as f: f.write(b) *)
  ollama_chat : string -> list (string * json) -> result json
    (* ollama.chat(model=..., messages=[message]) *)
}.

(** The format [Image.open] finds in a buffer. *)
Definition buffer_format (h : Host) (b : bytes h) : option image_format :=
  match Image_open (pillow h) b with
  | inr im => Some (Image_format (pillow h) im)
  | inl _ => None
  end.

Definition buffer_size (h : Host) (b : bytes h) : option (Z * Z) :=
  match Image_open (pillow h) b with
  | inr im => Some (Image_size (pillow h) im)
  | inl _ => None
  end.

(** ** The overlay renderer *)

(** The body of the loop of [_add_overlays] once [x] and [y] are read:
    the circle of radius 15, then the number centred on it. *)
Definition draw_marker (h : Host) (im : Image (pillow h)) (idx x y : Z) : Image (pillow h) :=
  let radius := 15 in
  let im1 := ellipse (pillow h) im ((x - radius, y - radius), (x + radius, y + radius)) in
  let label := pretty idx in
  match textbbox (pillow h) label with
  | (b0, b1, b2, b3) =>
      let text_width := b2 - b0 in
      let text_height := b3 - b1 in
      text (pillow h) im1 (x - text_width `div` 2, y - text_height `div` 2) label
  end.

(** [x, y = int(el['x']), int(el['y'])]. *)
Definition marker_centre (h : Host) (el : json) : result (Z * Z) :=
  match getitem el "x" with inl e => inl e | inr ex =>
  match int (max_str_digits h) ex with inl e => inl e | inr x =>
  match getitem el "y" with inl e => inl e | inr ey =>
  match int (max_str_digits h) ey with inl e => inl e | inr y => inr (x, y)
  end end end end.

(** [for idx, el in enumerate(elements, idx): ...]. *)
Fixpoint draw_markers (h : Host) (idx : Z) (elements : list json) (im : Image (pillow h))
    : result (Image (pillow h)) :=
  match elements with
  | [] => inr im
  | el :: elements' =>
      match marker_centre h el with
      | inl e => inl e
      | inr (x, y) => draw_markers h (idx + 1) elements' (draw_marker h im idx x y)
      end
  end.

Definition _add_overlays (h : Host) (screenshot_bytes : bytes h) (elements : json) : result (bytes h) :=
  match Image_open (pillow h) screenshot_bytes with inl e => inl e | inr image =>
  match ImageDraw_Draw (pillow h) image with inl e => inl e | inr _ =>
  match iterate elements with inl e => inl e | inr els =>
  match draw_markers h 1 els image with inl e => inl e | inr image' =>
    inr (save (pillow h) image' PNG)
  end end end end.

(** ** [ChromeDevTools.screenshot] *)

Definition capture_full_page : M ChromeDevTools unit :=
  let! layout := send_command "Page.getLayoutMetrics" None in
  let! r := lift (getitem layout "result") in
  let! size := lift (getitem r "contentSize") in
  let! width := lift (getitem size "width") in
  let! r' := lift (getitem layout "result") in
  let! size' := lift (getitem r' "contentSize") in
  let! height := lift (getitem size' "height") in
  let! _ := send_command "Emulation.setDeviceMetricsOverride"
              (Some [("width", width); ("height", height);
                     ("deviceScaleFactor", JInt 1); ("mobile", JBool false)]) in
  ret tt.

Definition screenshot (h : Host) (full_page with_overlays : bool)
    : M ChromeDevTools (bytes h * json) :=
  let! _ := (if full_page then capture_full_page else ret tt) in
  let! result := send_command "Page.captureScreenshot" None in
  let! r := lift (getitem result "result") in
  let! screenshot_b64 := lift (getitem r "data") in
  let! screenshot_bytes := lift (b64decode h screenshot_b64) in
  if with_overlays then
    let! elements := get_interactive_elements in
    let! annotated := lift (_add_overlays h screenshot_bytes elements) in
    ret (annotated, elements)
  else ret (screenshot_bytes, JArr []).

(** [get_console_messages] and [get_network_activity]: read-only filters
    of [self.events]. *)
Definition console_message (event : json) : result json :=
  match getitem event "params" with inl e => inl e | inr params =>
  match getitem params "type" with inl e => inl e | inr type =>
  match getitem params "args" with inl e => inl e | inr args =>
  match iterate args with inl e => inl e | inr args' =>
  match comprehension (fun arg => get arg "value" JNull) args' with inl e => inl e | inr values =>
    inr (JObj [("type", type); ("args", JArr values)])
  end end end end end.

(** [[e for e in events if keep e]] where the test may raise. *)
Fixpoint select (keep : json -> result bool) (events : list json) : result (list json) :=
  match events with
  | [] => inr []
  | e :: events' =>
      match keep e with
      | inl x => inl x
      | inr b => match select keep events' with
                 | inl x => inl x
                 | inr es => inr (if b then e :: es else es)
                 end
      end
  end.

Definition get_console_messages : M ChromeDevTools json :=
  let! evs := gets events in
  let! console_events :=
    lift (select (fun e => match get e "method" JNull with
                           | inl x => inl x
                           | inr m => inr (equals_string m "Runtime.consoleAPICalled")
                           end) evs) in
  let! messages := lift (comprehension console_message console_events) in
  ret (JArr messages).

Definition get_network_activity : M ChromeDevTools json :=
  let! evs := gets events in
  let! network_events :=
    lift (select (fun e => match get e "method" (JStr "") with
                           | inl x => inl x
                           | inr m => str_startswith m "Network."
                           end) evs) in
  ret (JArr network_events).

(** ** The browser tools of [TerminalBrowserServer]

    A [TerminalBrowserServer] is a server whose [self.cdp] is set and
    connected: every state of the record has its client [cdp].  Each browser
    tool opens with [await self._ensure_cdp()] (lines 693-697); on such a
    server its test [not self.cdp] fails and the call returns at once, so it
    has no counterpart in the definitions below.  The first browser call on
    a fresh server, which creates the client, opens the socket and may
    raise, is not represented.  [last_elements] holds the elements of the
    last screenshot. *)
Record TerminalBrowserServer : Type := mkServer {
  cdp : ChromeDevTools;
  last_elements : json
}.

Definition new_server (c : ChromeDevTools) : TerminalBrowserServer :=
  {| cdp := c; last_elements := JArr [] |}.

(** A method of [self.cdp] run from the server. *)
Definition on_cdp {A : Type} (m : M ChromeDevTools A) : M TerminalBrowserServer A :=
  fun srv => match m (cdp srv) with
             | (r, c') => (r, {| cdp := c'; last_elements := last_elements srv |})
             end.

Definition set_last_elements (elements : json) : M TerminalBrowserServer unit :=
  modify (fun srv => {| cdp := cdp srv; last_elements := elements |}).

(** [except Exception as e: return {"success": False, "error": str(e)}]. *)
Definition report {S : Type} (m : M S tool_result) : M S tool_result :=
  catch m (fun e => ret (Failed (Caught e))).

Definition browser_navigate (url : string) : M TerminalBrowserServer tool_result :=
  report (let! _ := on_cdp (navigate url) in
          ret (Succeeded [("success", JBool true); ("url", JStr url)])).

Definition VISION_MODEL : string := "gemma3:27b".

Definition screenshot_path : string := "/tmp/browser_screenshot.png".

Definition default_question : string :=
  "Describe what you see on this webpage. Include key elements, layout, and any important information.".

(** One entry of the ["elements"] list of the screenshot's result. *)
Definition element_summary (idx_el : Z * json) : result json :=
  match idx_el with (idx, el) =>
  match getitem el "tag" with inl e => inl e | inr tag =>
  match get el "type" JNull with inl e => inl e | inr type =>
  match getitem el "text" with inl e => inl e | inr text =>
  match getitem el "selector" with inl e => inl e | inr selector =>
    inr (JObj [("number", JInt idx); ("tag", tag); ("type", type);
               ("text", text); ("selector", selector)])
  end end end end end.

(** [enumerate(l, start)]. *)
Fixpoint enumerate {A : Type} (start : Z) (l : list A) : list (Z * A) :=
  match l with
  | [] => []
  | a :: l' => (start, a) :: enumerate (start + 1) l'
  end.

Definition browser_screenshot (h : Host) (analyze : bool) (question : option string)
    (full_page with_overlays : bool) : M TerminalBrowserServer tool_result :=
  report (
    let! shot := on_cdp (screenshot h full_page with_overlays) in
    let! _ := set_last_elements (snd shot) in
    let screenshot_bytes := fst shot in
    let elements := snd shot in
    let! _ := lift (write_file h screenshot_path screenshot_bytes) in
    let! listed :=
      (if with_overlays then
         let! els := lift (iterate elements) in
         lift (comprehension element_summary (enumerate 1 els))
       else ret []) in
    let fields := [("success", JBool true); ("screenshot_path", JStr screenshot_path);
                   ("elements", JArr listed)] in
    if analyze then
      let screenshot_b64 := b64encode h screenshot_bytes in
      let prompt := match question with
                    | Some q => if String.eqb q "" then default_question else q
                    | None => default_question
                    end in
      let! response := lift (ollama_chat h VISION_MODEL
                               [("role", JStr "user"); ("content", JStr prompt);
                                ("images", JArr [JStr screenshot_b64])]) in
      let! message := lift (getitem response "message") in
      let! content := lift (getitem message "content") in
      ret (Succeeded (fields ++ [("analysis", content)]))
    else ret (Succeeded fields)).

Definition browser_get_dom : M TerminalBrowserServer tool_result :=
  report (let! dom := on_cdp get_dom in
          ret (Succeeded [("success", JBool true); ("dom", dom)])).

(** The numeric-reference block that opens [browser_click] and
    [browser_type] (the source has it twice, word for word): the selector to
    go on with, or the dict to return at once.  [ValueError] and
    [IndexError] are caught; anything else propagates. *)
Inductive resolution : Type :=
| Proceed (selector : json)
| Refuse (why : failure).

Definition resolve_selector (h : Host) (elements : json) (selector : string) : result resolution :=
  if startswith selector "element:" then
    match split ":" selector !! 1%nat with
    | None => inr (Refuse (InvalidElementNumber selector))
    | Some field =>
        match int_of_string (max_str_digits h) field with
        | None => inr (Refuse (InvalidElementNumber selector))
        | Some element_num =>
            if 0 <? element_num then
              match len elements with
              | inl e => inl e
              | inr n =>
                  if element_num <=? n then
                    match index elements (Z.to_nat (element_num - 1)) with
                    | inl IndexError => inr (Refuse (InvalidElementNumber selector))
                    | inl e => inl e
                    | inr element =>
                        match getitem element "selector" with
                        | inl e => inl e
                        | inr s => inr (Proceed s)
                        end
                    end
                  else inr (Refuse (ElementNumberNotFound element_num))
              end
            else inr (Refuse (ElementNumberNotFound element_num))
        end
    end
  else inr (Proceed (JStr selector)).

Definition browser_click (h : Host) (selector : string) : M TerminalBrowserServer tool_result :=
  let! elements := gets last_elements in
  let! target := lift (resolve_selector h elements selector) in
  match target with
  | Refuse why => ret (Failed why)
  | Proceed s => on_cdp (click s)
  end.

Definition browser_type (h : Host) (selector text : string) : M TerminalBrowserServer tool_result :=
  let! elements := gets last_elements in
  let! target := lift (resolve_selector h elements selector) in
  match target with
  | Refuse why => ret (Failed why)
  | Proceed s => on_cdp (type_text s text)
  end.

Definition browser_execute_script (script : string) : M TerminalBrowserServer tool_result :=
  on_cdp (execute_script script).

Definition browser_get_content : M TerminalBrowserServer tool_result :=
  report (let! content := on_cdp get_content in
          ret (Succeeded [("success", JBool true); ("content", content)])).

Definition browser_get_console : M TerminalBrowserServer tool_result :=
  report (let! messages := on_cdp get_console_messages in
          ret (Succeeded [("success", JBool true); ("messages", messages)])).

Definition browser_get_network : M TerminalBrowserServer tool_result :=
  report (let! network := on_cdp get_network_activity in
          ret (Succeeded [("success", JBool true); ("network", network)])).

(** The browser branch of [call_tool], with the arguments at the types the
    tool schemas give them.  (The terminal tools read and write neither
    [self.cdp] nor [self.last_elements].) *)
Inductive tool_call : Type :=
| BrowserNavigate (url : string)
| BrowserScreenshot (analyze : bool) (question : option string) (full_page with_overlays : bool)
| BrowserGetDom
| BrowserClick (selector : string)
| BrowserType (selector text : string)
| BrowserExecuteScript (script : string)
| BrowserGetContent
| BrowserGetConsole
| BrowserGetNetwork.

Definition call_tool (h : Host) (call : tool_call) : M TerminalBrowserServer tool_result :=
  match call with
  | BrowserNavigate url => browser_navigate url
  | BrowserScreenshot analyze question full_page with_overlays =>
      browser_screenshot h analyze question full_page with_overlays
  | BrowserGetDom => browser_get_dom
  | BrowserClick selector => browser_click h selector
  | BrowserType selector text => browser_type h selector text
  | BrowserExecuteScript script => browser_execute_script script
  | BrowserGetContent => browser_get_content
  | BrowserGetConsole => browser_get_console
  | BrowserGetNetwork => browser_get_network
  end.

(** Tool calls one after the other; one that raises does not stop the
    next. *)
Fixpoint call_tools (h : Host) (calls : list tool_call) (srv : TerminalBrowserServer)
    : list (result tool_result) * TerminalBrowserServer :=
  match calls with
  | [] => ([], srv)
  | call :: calls' =>
      match call_tool h call srv with
      | (r, srv') =>
          match call_tools h calls' srv' with
          | (rs, srv'') => (r :: rs, srv'')
          end
      end
  end.

(** A step of a tool that leaves [self.last_elements] alone. *)
Definition keeps_registry {A : Type} (m : M TerminalBrowserServer A) : Prop :=
  forall srv, last_elements (snd (m srv)) = last_elements srv.

(** ** Frames and schedules used in the examples below *)

(** A reply [{"id": id, "result": {...}}] as the receive loop reads it. *)
Definition reply_frame (id : Z) (result : list (string * json)) : ws_message :=
  Text (JObj [("id", JInt id); ("result", JObj result)]).

(** A reply [{"id": id, "error": {"code": ..., "message": ...}}]. *)
Definition error_frame (id : Z) (code : Z) (message : string) : ws_message :=
  Text (JObj [("id", JInt id);
              ("error", JObj [("code", JInt code); ("message", JStr message)])]).

Definition stale_reply : json :=
  JObj [("id", JInt 1); ("result", JObj [("value", JStr "stale")])].

Definition late_reply : json :=
  JObj [("id", JInt 1); ("result", JObj [("value", JStr "late")])].

(** The connection after its only call, [Page.reload], got no reply. *)
Definition timed_out : ChromeDevTools :=
  snd (send_command "Page.reload" None (connected [])).

(** A reply with id 7 that no call made so far is waiting for. *)
Definition stray_reply : json :=
  JObj [("id", JInt 7); ("result", JObj [])].

(** The key events of [text] as they are to appear on the wire, written
    out in full: one [Input.dispatchKeyEvent] of type [char] per character,
    in the text's order, the first under id [first_id]. *)
Fixpoint key_frames (first_id : Z) (text : string) : list json :=
  match text with
  | EmptyString => []
  | String char text' =>
      JObj [("id", JInt first_id); ("method", JStr "Input.dispatchKeyEvent");
            ("params", JObj [("type", JStr "char"); ("text", JStr (String char EmptyString))])]
        :: key_frames (first_id + 1) text'
  end.

(** The centre of a content quad [[x1, y1, x2, y2, x3, y3, x4, y4]] as the
    specification words it: the mean of the least and the greatest x, and
    of the least and the greatest y. *)
Definition quad_centre (quad : list Q) : option (Q * Q) :=
  match quad with
  | [x1; y1; x2; y2; x3; y3; x4; y4] =>
      let lo a b c d := Qmin (Qmin a b) (Qmin c d) in
      let hi a b c d := Qmax (Qmax a b) (Qmax c d) in
      Some (Qred ((lo x1 x2 x3 x4 + hi x1 x2 x3 x4) / 2),
            Qred ((lo y1 y2 y3 y4 + hi y1 y2 y3 y4) / 2))
  | _ => None
  end.

(** The content quad of a 10 by 10 box turned by a quarter: corners
    (10,0), (10,10), (0,10), (0,0). *)
Definition turned_quad : list Q := [10; 0; 10; 10; 0; 10; 0; 0]%Q.

(** A page whose document root is node 1 and whose button is node 7 with
    the quad [quad]: the replies to [click]'s five requests. *)
Definition click_replies (quad : list Q) : list (list ws_message) :=
  [[reply_frame 1 [("root", JObj [("nodeId", JInt 1)])]];
   [reply_frame 2 [("nodeId", JInt 7)]];
   [reply_frame 3 [("model", JObj [("content", JArr (map JNum quad))])]];
   [reply_frame 4 []];
   [reply_frame 5 []]].

(** The replies to [type_text "ab"]: document, node, focus, two keys. *)
Definition type_replies : list (list ws_message) :=
  [[reply_frame 1 [("root", JObj [("nodeId", JInt 1)])]];
   [reply_frame 2 [("nodeId", JInt 7)]];
   [reply_frame 3 []];
   [reply_frame 4 []];
   [reply_frame 5 []]].

(** Both of [navigate]'s requests answered, and no event at all: the
    second reply is the remote's refusal of a command it does not know. *)
Definition navigate_replies : list (list ws_message) :=
  [[reply_frame 1 [("frameId", JStr "F1")]];
   [error_frame 2 (-32601) "'Page.loadEventFired' wasn't found"]].

Definition evaluate_params (script : string) : option (list (string * json)) :=
  Some [("expression", JStr script); ("returnByValue", JBool true)].

Definition evaluate_value_replies : list (list ws_message) :=
  [[reply_frame 1 [("value", JInt 2)]]].

(** What Chrome answers to [Runtime.evaluate] of [1+1] with
    [returnByValue]: the result object of the reply holds the remote object
    under its own member [result]. *)
Definition chrome_evaluate_reply : json :=
  JObj [("id", JInt 1);
        ("result", JObj [("result", JObj [("type", JStr "number"); ("value", JInt 2);
                                          ("description", JStr "2")])])].

(** The markers the overlay is to bear, written out with Pillow's own
    operations: on [image], for each centre in order, a circle of radius 15
    around it and then the number -- [idx] for the first, counting up --
    set so that the middle of its bounding box falls on the centre. *)
Fixpoint numbered_markers {bytes : Type} (pil : Pillow bytes) (image : Image pil)
    (idx : Z) (centres : list (Z * Z)) : Image pil :=
  match centres with
  | [] => image
  | (x, y) :: centres' =>
      let circled := ellipse pil image ((x - 15, y - 15), (x + 15, y + 15)) in
      match textbbox pil (pretty idx) with
      | (x0, y0, x1, y1) =>
          numbered_markers pil
            (text pil circled (x - (x1 - x0) `div` 2, y - (y1 - y0) `div` 2) (pretty idx))
            (idx + 1) centres'
      end
  end.

(** The centre [_add_overlays] is to read from an element: its members [x]
    and [y], each made an integer by [int]. *)
Definition centre_of (h : Host) (el : json) (xy : Z * Z) : Prop :=
  exists ex ey,
    getitem el "x" = inr ex /\ int (max_str_digits h) ex = inr (fst xy)
    /\ getitem el "y" = inr ey /\ int (max_str_digits h) ey = inr (snd xy).

(** A tool call that is not a screenshot with overlays. *)
Definition without_overlays (call : tool_call) : Prop :=
  match call with
  | BrowserScreenshot _ _ _ true => False
  | _ => True
  end.

(** *** A host for the examples

    A buffer is the picture it encodes: its format, its size and what has
    been drawn on it.  Every text is eight pixels wide per character and
    twelve high; base64 text decodes to a blank 800 by 600 PNG. *)
Inductive drawing : Type :=
| Ellipse (box : (Z * Z) * (Z * Z))
| Label (xy : Z * Z) (s : string).

Record picture : Type := mkPicture {
  pic_format : image_format;
  pic_size : Z * Z;
  pic_drawn : list drawing
}.

Definition draw_on (d : drawing) (p : picture) : picture :=
  {| pic_format := pic_format p; pic_size := pic_size p; pic_drawn := pic_drawn p ++ [d] |}.

Definition picture_pillow : Pillow picture :=
  {| Image := picture;
     Image_open := fun b => inr b;
     Image_format := pic_format;
     Image_size := pic_size;
     ImageDraw_Draw := fun _ => inr tt;
     ellipse := fun im box => draw_on (Ellipse box) im;
     textbbox := fun s => (0, 0, 8 * Z.of_nat (String.length s), 12);
     text := fun im xy s => draw_on (Label xy s) im;
     save := fun im fmt =>
       {| pic_format := fmt; pic_size := pic_size im; pic_drawn := pic_drawn im |} |}.

Definition blank (fmt : image_format) : picture :=
  {| pic_format := fmt; pic_size := (800, 600); pic_drawn := [] |}.

Definition picture_host : Host :=
  {| max_str_digits := 4300;
     bytes := picture;
     b64decode := fun x => match x with JStr _ => inr (blank PNG) | _ => inl TypeError end;
     b64encode := fun _ => "";
     pillow := picture_pillow;
     write_file := fun _ _ => inr tt;
     ollama_chat := fun _ _ => inl (EnvError "no model") |}.

Definition element (tag text selector : string) (x y : Q) : json :=
  JObj [("tag", JStr tag); ("type", JNull); ("text", JStr text);
        ("x", JNum x); ("y", JNum y); ("width", JNum 80); ("height", JNum 24);
        ("selector", JStr selector)].

Definition three_elements : list json :=
  [element "a" "Home" "a.nav" 40 (25 # 2);
   element "button" "Go" "button#go" 200 300;
   element "input" "" "input#q" (641 # 2) 120].

(** A server whose last screenshot found [three_elements]. *)
Definition server_with_three (incoming : list (list ws_message)) : TerminalBrowserServer :=
  {| cdp := connected incoming; last_elements := JArr three_elements |}.

(** The reply to [Page.captureScreenshot]. *)
Definition capture_replies : list (list ws_message) :=
  [[reply_frame 1 [("data", JStr "iVBORw0KGgo=")]]].

(** ** Further notions used in the properties below *)

(** The frames a sequence of calls is to put on the wire, written out in
    full: for each call in order the object with the members [id], [method]
    and [params] (the empty object when the call gave none), the first
    under id [first_id] and each next id one more. *)
Fixpoint command_frames (first_id : Z) (cmds : list (string * option (list (string * json))))
    : list json :=
  match cmds with
  | [] => []
  | (method, params) :: cmds' =>
      JObj [("id", JInt first_id); ("method", JStr method);
            ("params", JObj (match params with Some p => p | None => [] end))]
        :: command_frames (first_id + 1) cmds'
  end.


(** [x] is what Python computes for [(box[i] + box[j]) / 2]. *)
Definition half_sum (box : json) (i j : nat) (x : json) : Prop :=
  exists a b s, index box i = inr a /\ index box j = inr b /\ add a b = inr s /\ half s = inr x.

(** No frame of the batch is a reply filed under [k]. *)
Definition quiet (k : key) (batch : list ws_message) : Prop :=
  Forall (fun m => message_key m <> Some k) batch.

(** An event [get_network_activity] can test: an object whose [method], if
    it has one, is a string. *)
Definition plain_event (e : json) : Prop :=
  match e with
  | JObj d => match dict_get "method" d with
              | Some (JStr _) | None => True
              | Some _ => False
              end
  | _ => False
  end.

(** The test of [get_network_activity] on such an event. *)
Definition is_network_event (e : json) : bool :=
  match e with
  | JObj d => match dict_get "method" d with
              | Some (JStr s) => startswith s "Network."
              | _ => false
              end
  | _ => false
  end.

Definition is_object (e : json) : bool :=
  match e with
  | JObj _ => true
  | _ => false
  end.

(** A string of decimal digits only. *)
Fixpoint digits_only (s : string) : bool :=
  match s with
  | EmptyString => true
  | String c s' => is_digit c && digits_only s'
  end.

(** ** The terminal tools *)

(** *** The danger patterns

    [re.search(pattern, command)] for the five patterns of
    [DANGEROUS_PATTERNS].  Each pattern is kept with the form [re] compiles
    it to: alternatives, each a sequence of literal text, [\s+] and [\s*].
    None has an anchor, a class or a group that captures text.  In the
    fourth, [()] is an empty group, [{ ] and [}] are literal braces (no
    repeat count follows the opening one), and the bar splits the pattern
    in two alternatives. *)
Inductive atom : Type :=
| Lit (text : string)
| Spaces1
| Spaces0.

Definition regex : Type := list (list atom).

Definition DANGEROUS_PATTERNS : list (string * regex) :=
  [("rm\s+-rf\s+/", [[Lit "rm"; Spaces1; Lit "-rf"; Spaces1; Lit "/"]]);
   ("mkfs", [[Lit "mkfs"]]);
   ("dd\s+if=/dev/zero", [[Lit "dd"; Spaces1; Lit "if=/dev/zero"]]);
   (":(){ :|:& };:", [[Lit ":"; Lit "{ :"]; [Lit ":& };:"]]);
   (">\s*/dev/sd", [[Lit ">"; Spaces0; Lit "/dev/sd"]])].

(** [\s] on a [str], and the characters [str.strip()] removes: the
    characters for which [str.isspace()] holds. *)
Definition is_unicode_space (c : ascii) : bool :=
  let n := N_of_ascii c in
  ((9 <=? n) && (n <=? 13) || (28 <=? n) && (n <=? 32) || (n =? 133) || (n =? 160))%N.

(** [s] without the prefix [p], when it has it. *)
Fixpoint strip_prefix (p s : string) : option string :=
  match p with
  | EmptyString => Some s
  | String a p' =>
      match s with
      | String b s' => if Ascii.eqb a b then strip_prefix p' s' else None
      | EmptyString => None
      end
  end.

(** Any number of whitespace characters, then [k]. *)
Fixpoint spaces_then (k : string -> bool) (s : string) : bool :=
  k s ||
  match s with
  | String c s' => is_unicode_space c && spaces_then k s'
  | EmptyString => false
  end.

(** The atoms match at the start of [s]. *)
Fixpoint match_atoms (atoms : list atom) (s : string) : bool :=
  match atoms with
  | [] => true
  | Lit text :: atoms' =>
      match strip_prefix text s with
      | Some s' => match_atoms atoms' s'
      | None => false
      end
  | Spaces1 :: atoms' =>
      match s with
      | String c s' => is_unicode_space c && spaces_then (match_atoms atoms') s'
      | EmptyString => false
      end
  | Spaces0 :: atoms' => spaces_then (match_atoms atoms') s
  end.

(** The atoms match somewhere in [s]. *)
Fixpoint search_atoms (atoms : list atom) (s : string) : bool :=
  match_atoms atoms s ||
  match s with
  | String _ s' => search_atoms atoms s'
  | EmptyString => false
  end.

(** [re.search(pattern, s)] is not [None]. *)
Definition re_search (r : regex) (s : string) : bool :=
  existsb (fun atoms => search_atoms atoms s) r.

(** The loop of [_is_command_safe]: the text of the first pattern found. *)
Fixpoint first_dangerous (patterns : list (string * regex)) (command : string) : option string :=
  match patterns with
  | [] => None
  | (pattern, r) :: patterns' =>
      if re_search r command then Some pattern else first_dangerous patterns' command
  end.

Definition _is_command_safe (command : string) : bool * option string :=
  match first_dangerous DANGEROUS_PATTERNS command with
  | Some pattern => (false, Some ("Matches dangerous pattern: " ++ pattern))
  | None => (true, None)
  end.

(** *** [execute_command]

    What [subprocess.run(command, shell=True, capture_output=True,
    text=True, timeout=timeout)] comes to; the state is the list of the
    commands handed to the shell, oldest first. *)
Inductive process_outcome : Type :=
| Completed (returncode : Z) (stdout stderr : string)
| TimeoutExpired
| RunFailed (text : string).
    (* any other exception, with its str(e) *)

Definition Shell : Type := list (string * Z).

Definition execute_command (subprocess_run : string -> Z -> process_outcome)
    (command : string) (dry_run : bool) (timeout : Z) : Shell -> list (string * json) * Shell :=
  fun shell =>
    match _is_command_safe command with
    | (false, reason) =>
        ([("success", JBool false);
          ("error", JStr ("Unsafe command blocked: "
                          ++ match reason with Some text => text | None => "None" end));
          ("command", JStr command)], shell)
    | (true, _) =>
        if dry_run then
          ([("success", JBool true); ("dry_run", JBool true); ("command", JStr command);
            ("message", JStr "Command validated (not executed)")], shell)
        else
          (match subprocess_run command timeout with
           | Completed returncode stdout stderr =>
               [("success", JBool (returncode =? 0)); ("exit_code", JInt returncode);
                ("stdout", JStr stdout); ("stderr", JStr stderr); ("command", JStr command)]
           | TimeoutExpired =>
               [("success", JBool false);
                ("error", JStr ("Command timed out after " ++ pretty timeout ++ "s"));
                ("command", JStr command)]
           | RunFailed text =>
               [("success", JBool false); ("error", JStr text); ("command", JStr command)]
           end, (shell ++ [(command, timeout)])%list)
    end.

(** *** [explain_command] and [natural_to_command] *)

Definition TERMINAL_MODEL : string := "comanderanch/Linux-Buster:latest".

Definition newline : string := String (ascii_of_nat 10) EmptyString.

Fixpoint str_lstrip (s : string) : string :=
  match s with
  | String c s' => if is_unicode_space c then str_lstrip s' else s
  | EmptyString => s
  end.

Fixpoint str_rstrip (s : string) : string :=
  match s with
  | String c s' =>
      match str_rstrip s' with
      | EmptyString => if is_unicode_space c then EmptyString else String c EmptyString
      | r => String c r
      end
  | EmptyString => EmptyString
  end.

(** [x.strip()]. *)
Definition str_strip (x : json) : result string :=
  match x with
  | JStr s => inr (str_rstrip (str_lstrip s))
  | _ => inl AttributeError
  end.

(** [response['message']['content']] of a chat with one user message. *)
Definition chat_content (h : Host) (prompt : string) : result json :=
  match ollama_chat h TERMINAL_MODEL [("role", JStr "user"); ("content", JStr prompt)] with
  | inl e => inl e
  | inr response =>
      match getitem response "message" with
      | inl e => inl e
      | inr message => getitem message "content"
      end
  end.

Definition explain_command (h : Host) (command : string) : result json :=
  chat_content h ("Explain what this Linux command does:" ++ newline ++ command
                  ++ newline ++ newline ++ "Be concise and clear.").

Definition natural_to_command (h : Host) (instruction : string) (context : option string)
    : result (list (string * json)) :=
  let prompt := "Convert this instruction to a Linux command:" ++ newline ++ instruction in
  let prompt := match context with
                | Some text =>
                    if String.eqb text "" then prompt
                    else prompt ++ newline ++ newline ++ "Context: " ++ text
                | None => prompt
                end in
  let prompt := prompt ++ newline ++ newline ++ "Respond with ONLY the command, no explanation." in
  match chat_content h prompt with
  | inl e => inl e
  | inr content =>
      match str_strip content with
      | inl e => inl e
      | inr command =>
          match _is_command_safe command with
          | (true, _) =>
              match explain_command h command with
              | inl e => inl e
              | inr explanation =>
                  inr [("command", JStr command); ("safe", JBool true);
                       ("reason", JNull); ("explanation", explanation)]
              end
          | (false, reason) =>
              inr [("command", JStr command); ("safe", JBool false);
                   ("reason", match reason with Some text => JStr text | None => JNull end);
                   ("explanation", JNull)]
          end
      end
  end.

(** [needle in hay] holds exactly when [hay] is some text, [needle], and
    some more text. *)
Definition has_substring (needle hay : string) : Prop :=
  exists before after, hay = before ++ needle ++ after.

(** ** More frames, schedules and hosts for the examples *)

(** A page whose document has no node for the selector: the reply to
    [DOM.querySelector] carries no [nodeId]. *)
Definition missing_replies : list (list ws_message) :=
  [[reply_frame 1 [("root", JObj [("nodeId", JInt 1)])]];
   [reply_frame 2 []]].

(** The replies to a full-page capture of a page 1200 by 3000. *)
Definition full_page_replies : list (list ws_message) :=
  [[reply_frame 1 [("contentSize", JObj [("width", JInt 1200); ("height", JInt 3000)])]];
   [reply_frame 2 []];
   [reply_frame 3 [("data", JStr "iVBORw0KGgo=")]]].

Definition network_event : json :=
  JObj [("method", JStr "Network.requestWillBeSent"); ("params", JObj [("requestId", JStr "7.1")])].

Definition console_event : json :=
  JObj [("method", JStr "Runtime.consoleAPICalled");
        ("params", JObj [("type", JStr "log"); ("args", JArr [JObj [("value", JStr "hi")]])])].

Definition nameless_event : json := JObj [("params", JObj [])].

(** A connection that has logged three events. *)
Definition logged : ChromeDevTools :=
  set_events [network_event; console_event; nameless_event] (connected []).

(** A hundred suspensions with nothing, then the reply for id 1. *)
Definition too_late : list (list ws_message) :=
  (replicate 100 [] ++ [[Text late_reply]])%list.

(** The example host with a file system that refuses the write. *)
Definition read_only_host : Host :=
  {| max_str_digits := max_str_digits picture_host;
     bytes := bytes picture_host;
     b64decode := b64decode picture_host;
     b64encode := b64encode picture_host;
     pillow := pillow picture_host;
     write_file := fun _ _ => inl (EnvError "Read-only file system");
     ollama_chat := ollama_chat picture_host |}.

(** The example host with a model that always answers the same command. *)
Definition chat_host (answer : string) : Host :=
  {| max_str_digits := max_str_digits picture_host;
     bytes := bytes picture_host;
     b64decode := b64decode picture_host;
     b64encode := b64encode picture_host;
     pillow := pillow picture_host;
     write_file := write_file picture_host;
     ollama_chat := fun _ _ => inr (JObj [("message", JObj [("content", JStr answer)])]) |}.

(** A shell in which every command exits with 0. *)
Definition obliging_shell (command : string) (timeout : Z) : process_outcome :=
  Completed 0 "" "".
(** ** The receive loop *)

Section Listen.

Implicit Types (c : ChromeDevTools) (m : ws_message) (k : key).

Lemma getitem_contains data id :
  getitem data "id" = inr id -> contains "id" data = inr true.
Proof.
  destruct data as [| | | |l|d]; simpl; try discriminate.
  destruct (dict_get "id" d); [reflexivity | discriminate].
Qed.

Lemma listen_frame_files c data k :
  frame_key data = Some k ->
  listen_frame (Text data) c = set_responses (<[k := data]> (responses c)) c.
Proof.
  unfold frame_key, listen_frame. intros Hk.
  destruct (getitem data "id") as [e|id] eqn:Hid; [discriminate|].
  rewrite (getitem_contains _ _ Hid), Hk. reflexivity.
Qed.

(** What one frame can do to the object: nothing but stop the task, append
    an event, or file the frame under its key. *)
Lemma listen_frame_cases m c :
  listen_frame m c = stop_listening c
  \/ (exists data, m = Text data /\ listen_frame m c = set_events (events c ++ [data]) c)
  \/ (exists data k, m = Text data /\ frame_key data = Some k
        /\ listen_frame m c = set_responses (<[k := data]> (responses c)) c).
Proof.
  destruct m as [data|]; [|left; reflexivity]. unfold listen_frame.
  destruct (contains "id" data) as [e|[|]] eqn:Hc; [left; reflexivity| |right; left; eauto].
  destruct (getitem data "id") as [e|id] eqn:Hid; [left; reflexivity|].
  destruct (hash_key id) as [k|] eqn:Hk; [|left; reflexivity].
  right; right. exists data, k. unfold frame_key. rewrite Hid. auto.
Qed.

Lemma listen_frame_frame m c :
  message_id (listen_frame m c) = message_id c
  /\ ws_sent (listen_frame m c) = ws_sent c
  /\ ws_incoming (listen_frame m c) = ws_incoming c.
Proof.
  destruct (listen_frame_cases m c) as [-> | [(d & _ & ->) | (d & k & _ & _ & ->)]]; auto.
Qed.

Lemma listen_frame_filed m c :
  filed_under_own_id c -> filed_under_own_id (listen_frame m c).
Proof.
  intros Hc.
  destruct (listen_frame_cases m c) as [-> | [(d & _ & ->) | (d & k & _ & Hk & ->)]]; auto.
  intros k' d'. simpl. rewrite lookup_insert. case_decide; [|apply Hc].
  intros [= <-]. congruence.
Qed.

Lemma listen_frame_keeps m c k :
  is_Some (responses c !! k) -> is_Some (responses (listen_frame m c) !! k).
Proof.
  intros Hc.
  destruct (listen_frame_cases m c) as [-> | [(d & _ & ->) | (d & k' & _ & _ & ->)]]; auto.
  simpl. rewrite lookup_insert. case_decide; eauto.
Qed.

Lemma listen_frame_other m c k :
  message_key m <> Some k -> responses (listen_frame m c) !! k = responses c !! k.
Proof.
  intros Hm.
  destruct (listen_frame_cases m c) as [-> | [(d & _ & ->) | (d & k' & -> & Hk & ->)]]; auto.
  simpl in *. apply lookup_insert_ne. congruence.
Qed.

Lemma _listen_frame batch c :
  message_id (_listen batch c) = message_id c
  /\ ws_sent (_listen batch c) = ws_sent c
  /\ ws_incoming (_listen batch c) = ws_incoming c.
Proof.
  revert c. induction batch as [|m batch IH]; intros c; simpl; [auto|].
  destruct (listening c); [|auto].
  destruct (IH (listen_frame m c)) as (-> & -> & ->). apply listen_frame_frame.
Qed.

Lemma _listen_filed batch c :
  filed_under_own_id c -> filed_under_own_id (_listen batch c).
Proof.
  revert c. induction batch as [|m batch IH]; intros c Hc; simpl; [auto|].
  destruct (listening c); auto using listen_frame_filed.
Qed.

Lemma _listen_keeps batch c k :
  is_Some (responses c !! k) -> is_Some (responses (_listen batch c) !! k).
Proof.
  revert c. induction batch as [|m batch IH]; intros c Hc; simpl; [auto|].
  destruct (listening c); auto using listen_frame_keeps.
Qed.

Lemma _listen_other batch c k :
  Forall (fun m => message_key m <> Some k) batch ->
  responses (_listen batch c) !! k = responses c !! k.
Proof.
  intros Hb. revert c. induction Hb as [|m batch Hm _ IH]; intros c; simpl; [auto|].
  destruct (listening c); [|auto]. rewrite IH. by apply listen_frame_other.
Qed.

Lemma suspend_frame c :
  message_id (suspend c) = message_id c /\ ws_sent (suspend c) = ws_sent c.
Proof.
  unfold suspend. destruct (ws_incoming c) as [|batch later]; [auto|].
  destruct (_listen_frame batch (set_ws_incoming later c)) as (-> & -> & _). auto.
Qed.

Lemma suspend_filed c : filed_under_own_id c -> filed_under_own_id (suspend c).
Proof.
  unfold suspend. destruct (ws_incoming c); [auto|]. intros Hc. by apply _listen_filed.
Qed.

Lemma suspend_keeps c k :
  is_Some (responses c !! k) -> is_Some (responses (suspend c) !! k).
Proof.
  unfold suspend. destruct (ws_incoming c); [auto|]. intros Hc. by apply _listen_keeps.
Qed.

Lemma suspend_other c k :
  Forall (fun m => message_key m <> Some k) (hd [] (ws_incoming c)) ->
  responses (suspend c) !! k = responses c !! k.
Proof.
  unfold suspend. destruct (ws_incoming c) as [|batch later]; [auto|]. simpl.
  intros Hb. by rewrite _listen_other.
Qed.

End Listen.

(** ** One call *)

Section Calls.

Implicit Types (c : ChromeDevTools) (k : key) (r : result json).

Lemma int_key_inj a b : int_key a = int_key b -> a = b.
Proof. by intros [= ->]. Qed.

(** What a call does to the object once its request is written, whatever
    arrives meanwhile: it never touches the counter or the socket's output,
    it keeps every stored frame filed under its own id, it returns only a
    frame filed under the id it waits for, and it removes no other entry. *)
Definition wait_effect (msg_id : Z) c r c' : Prop :=
  message_id c' = message_id c
  /\ ws_sent c' = ws_sent c
  /\ (filed_under_own_id c ->
      filed_under_own_id c'
      /\ forall reply, r = inr reply -> frame_key reply = Some (int_key msg_id))
  /\ (forall k, k <> int_key msg_id ->
      is_Some (responses c !! k) -> is_Some (responses c' !! k)).

Lemma wait_response_effect polls method msg_id c r c' :
  wait_response polls method msg_id c = (r, c') -> wait_effect msg_id c r c'.
Proof.
  revert c r c'. induction polls as [|polls IH]; intros c r c'; simpl.
  - intros [= <- <-]. split; [reflexivity|]. split; [reflexivity|]. split; [|auto].
    intros Hc. split; [exact Hc | discriminate].
  - destruct (responses c !! int_key msg_id) as [reply|] eqn:Hreply.
    + intros [= <- <-]. unfold pop_response. simpl.
      split; [reflexivity|]. split; [reflexivity|]. split.
      * intros Hc. split.
        -- intros k d. simpl. intros [_ Hd]%lookup_delete_Some. by apply Hc.
        -- intros ? [= <-]. by apply Hc.
      * intros k Hk. simpl. by rewrite lookup_delete_ne.
    + unfold bind, sleep, modify. intros Hrest. apply IH in Hrest.
      destruct Hrest as (Hid & Hsent & Hfiled & Hkeep).
      destruct (suspend_frame c) as [Hid' Hsent'].
      split; [congruence|]. split; [congruence|]. split.
      * intros Hc. apply Hfiled. by apply suspend_filed.
      * intros k Hk Hc. apply Hkeep; [done|]. by apply suspend_keeps.
Qed.

Lemma send_command_unfold method params c :
  send_command method params c =
  wait_response 100 method (message_id c + 1)
    (suspend (set_ws_sent (ws_sent c ++ [request (message_id c + 1) method params])
                (set_message_id (message_id c + 1) c))).
Proof. reflexivity. Qed.

(** A call allocates the next id, writes exactly one frame, and then only
    waits. *)
Lemma send_command_effect method params c r c' :
  send_command method params c = (r, c') ->
  message_id c' = message_id c + 1
  /\ ws_sent c' = (ws_sent c ++ [request (message_id c + 1) method params])%list
  /\ (filed_under_own_id c ->
      filed_under_own_id c'
      /\ forall reply, r = inr reply -> frame_key reply = Some (int_key (message_id c + 1)))
  /\ (forall k, k <> int_key (message_id c + 1) ->
      is_Some (responses c !! k) -> is_Some (responses c' !! k)).
Proof.
  rewrite send_command_unfold. intros Hw. apply wait_response_effect in Hw.
  destruct Hw as (Hid & Hsent & Hfiled & Hkeep).
  set (c1 := set_ws_sent _ _) in *.
  destruct (suspend_frame c1) as [Hid' Hsent'].
  split; [by rewrite Hid, Hid'|]. split; [by rewrite Hsent, Hsent'|]. split.
  - intros Hc. apply Hfiled. apply suspend_filed. exact Hc.
  - intros k Hk Hc. apply Hkeep; [done|]. apply suspend_keeps. exact Hc.
Qed.

(** A reply that is already in the table when the first poll looks is
    returned at once. *)
Lemma send_command_first_poll method params c data :
  Forall (fun m => message_key m <> Some (int_key (message_id c + 1))) (hd [] (ws_incoming c)) ->
  responses c !! int_key (message_id c + 1) = Some data ->
  fst (send_command method params c) = inr data.
Proof.
  intros Hquiet Hdata. rewrite send_command_unfold.
  set (c1 := set_ws_sent _ _).
  assert (responses (suspend c1) !! int_key (message_id c + 1) = Some data) as Hc1.
  { rewrite suspend_other; [exact Hdata | exact Hquiet]. }
  change 100%nat with (S 99). simpl. rewrite Hc1. reflexivity.
Qed.

(** A call is one interleaving of the transition system: it allocates once,
    and then suspends, pops or gives up. *)
Lemma wait_response_run polls method msg_id c :
  exists acts, run c acts (snd (wait_response polls method msg_id c)) /\ allocated acts = [].
Proof.
  revert c. induction polls as [|polls IH]; intros c; simpl.
  - exists [GiveUp msg_id]. split; [|reflexivity].
    eapply run_step; [apply step_give_up | apply run_done].
  - destruct (responses c !! int_key msg_id) as [reply|] eqn:Hreply; simpl.
    + exists [Deliver msg_id reply]. split; [|reflexivity].
      eapply run_step; [by apply step_deliver | apply run_done].
    + destruct (IH (suspend c)) as (acts & Hrun & Hnone).
      exists (Suspend :: acts). split; [|exact Hnone].
      eapply run_step; [apply step_suspend|]. unfold bind, sleep, modify.
      destruct (wait_response polls method msg_id (suspend c)) as [[e|v] c']; exact Hrun.
Qed.

Lemma send_command_run method params c :
  exists acts, run c acts (snd (send_command method params c))
               /\ allocated acts = [message_id c + 1].
Proof.
  rewrite send_command_unfold.
  set (c1 := set_ws_sent _ _).
  destruct (wait_response_run 100 method (message_id c + 1) (suspend c1)) as (acts & Hrun & Hnone).
  exists (Allocate (message_id c + 1) :: Suspend :: acts). split; [|simpl; by rewrite Hnone].
  eapply run_step; [apply step_allocate|].
  eapply run_step; [apply step_suspend|]. exact Hrun.
Qed.

End Calls.

(** ** Reading a run of a coroutine backwards *)

Section Inversion.

Context {S A B : Type}.

Lemma bind_inr (m : M S A) (k : A -> M S B) st b st' :
  bind m k st = (inr b, st') ->
  exists a st1, m st = (inr a, st1) /\ k a st1 = (inr b, st').
Proof.
  unfold bind. destruct (m st) as [[e|a] st1]; [discriminate|]. eauto.
Qed.

Lemma bind_cases (m : M S A) (k : A -> M S B) st r st' :
  bind m k st = (r, st') ->
  (exists e, m st = (inl e, st') /\ r = inl e)
  \/ (exists a st1, m st = (inr a, st1) /\ k a st1 = (r, st')).
Proof.
  unfold bind. destruct (m st) as [[e|a] st1].
  - intros [= <- <-]. left. eauto.
  - right. eauto.
Qed.

Lemma lift_inr (r : result A) (st : S) a st' :
  lift r st = (inr a, st') -> r = inr a /\ st' = st.
Proof. unfold lift. by intros [= -> ->]. Qed.

Lemma lift_cases (r r' : result A) (st st' : S) :
  lift r st = (r', st') -> r' = r /\ st' = st.
Proof. unfold lift. by intros [= -> ->]. Qed.

Lemma ret_inr (a a' : A) (st st' : S) :
  ret a st = (inr a', st') -> a' = a /\ st' = st.
Proof. unfold ret. by intros [= -> ->]. Qed.

End Inversion.

(** Steps that only compute leave the state as it is. *)
Lemma unchanged_ret {S A} (a : A) : unchanged (ret (S := S) a).
Proof. by intros st. Qed.

Lemma unchanged_lift {S A} (r : result A) : unchanged (lift (S := S) r).
Proof. by intros st. Qed.

Lemma unchanged_bind {S A B} (m : M S A) (k : A -> M S B) :
  unchanged m -> (forall a, unchanged (k a)) -> unchanged (bind m k).
Proof.
  intros Hm Hk st. unfold bind. specialize (Hm st).
  destruct (m st) as [[e|a] st1]; simpl in *; [exact Hm|]. by rewrite Hk.
Qed.

Ltac unchanged :=
  repeat first
    [ apply unchanged_ret | apply unchanged_lift
    | apply unchanged_bind; [|intros ?]
    | match goal with
      | |- unchanged (if ?b then _ else _) => destruct b
      | |- unchanged (match ?x with _ => _ end) => destruct x
      end ].

(** ** Replies nobody waits for *)

Section Correlation.

Implicit Types (c : ChromeDevTools) (k : key).

(** Later calls never hand out, and never remove, a frame filed under an id
    that was allocated before them. *)
Lemma send_commands_keep cmds c id :
  filed_under_own_id c ->
  id <= message_id c ->
  is_Some (responses c !! int_key id) ->
  forall replies c', send_commands cmds c = (replies, c') ->
  is_Some (responses c' !! int_key id)
  /\ forall reply, inr reply ∈ replies -> frame_key reply <> Some (int_key id).
Proof.
  revert c. induction cmds as [|[method params] cmds IH]; intros c Hfiled Hid Hkept replies c'; simpl.
  - intros [= <- <-]. split; [exact Hkept|]. intros reply Hin. inversion Hin.
  - destruct (send_command method params c) as [r c1] eqn:Hcall.
    destruct (send_commands cmds c1) as [rs c2] eqn:Hrest.
    intros [= <- <-].
    apply send_command_effect in Hcall as (Hmid & _ & Hf & Hkeep).
    destruct (Hf Hfiled) as [Hfiled1 Hreply].
    assert (int_key id <> int_key (message_id c + 1)) as Hne.
    { intros Heq%int_key_inj. lia. }
    destruct (IH c1 Hfiled1 ltac:(lia) (Hkeep _ Hne Hkept) _ _ Hrest) as [Hkept2 Hothers].
    split; [exact Hkept2|].
    intros reply [Hhead|Htail]%elem_of_cons.
    + rewrite (Hreply reply (eq_sym Hhead)). congruence.
    + by apply Hothers.
Qed.

(** C1, as amended.  The receive loop does not drop a reply whose id no call
    is waiting on: it files the frame under its id (in place of any earlier
    frame with that id) and goes on listening, leaving the event log as it
    was.  The frame then stays in the table through every call that waits on
    another id, none of which returns it; and the call that later allocates
    that very id returns it at its first poll (unless a newer frame with the
    same id arrives while its request is being written). *)
Theorem unknown_reply_is_filed c data k method params :
  frame_key data = Some k ->
  (responses (listen_frame (Text data) c) !! k = Some data
   /\ listening (listen_frame (Text data) c) = listening c
   /\ events (listen_frame (Text data) c) = events c)
  /\ (filed_under_own_id c ->
      k <> int_key (message_id c + 1) ->
      is_Some (responses (snd (send_command method params (listen_frame (Text data) c))) !! k)
      /\ forall reply,
           fst (send_command method params (listen_frame (Text data) c)) = inr reply ->
           frame_key reply <> Some k)
  /\ (k = int_key (message_id c + 1) ->
      Forall (fun m => message_key m <> Some k) (hd [] (ws_incoming c)) ->
      fst (send_command method params (listen_frame (Text data) c)) = inr data).
Proof.
  intros Hk. rewrite (listen_frame_files c data k Hk).
  set (c1 := set_responses _ c).
  assert (responses c1 !! k = Some data) as Hstored by apply lookup_insert_eq.
  split; [auto|]. split.
  - intros Hfiled Hne.
    assert (filed_under_own_id c1) as Hfiled1.
    { subst c1. rewrite <- (listen_frame_files c data k Hk). by apply listen_frame_filed. }
    destruct (send_command method params c1) as [r c2] eqn:Hcall. simpl.
    apply send_command_effect in Hcall as (_ & _ & Hf & Hkeep).
    split.
    + apply Hkeep; [exact Hne | by rewrite Hstored].
    + intros reply ->. destruct (Hf Hfiled1) as [_ Hreply].
      rewrite (Hreply reply eq_refl). subst c1. simpl. congruence.
  - intros -> Hquiet. apply send_command_first_poll; assumption.
Qed.

(** C1, as stated, fails: a reply with id 1 arrives while nothing is
    pending (no request has been written yet); the call made afterwards
    allocates id 1 and is handed that reply. *)
Lemma unknown_reply_reaches_a_later_call :
  ws_sent (listen_frame (Text stale_reply) (connected [])) = []
  /\ responses (listen_frame (Text stale_reply) (connected [])) !! int_key 1 = Some stale_reply
  /\ fst (send_command "Runtime.evaluate" None (listen_frame (Text stale_reply) (connected [])))
     = inr stale_reply.
Proof. vm_compute. auto. Qed.

(** C2, as amended.  A call that runs out of polls raises [TimeoutError]
    having allocated one id and removed nothing (there is no pending entry
    to deregister).  A reply for that id that arrives afterwards is not
    dropped: the receive loop files it, and it stays in the table through
    all later calls; none of them returns it, since each returns only a
    frame that carries the id it allocated itself. *)
Theorem late_reply_is_kept_but_never_delivered c0 method params msg c1 late cmds :
  filed_under_own_id c0 ->
  send_command method params c0 = (inl (TimeoutError msg), c1) ->
  frame_key late = Some (int_key (message_id c1)) ->
  message_id c1 = message_id c0 + 1
  /\ (forall k, is_Some (responses c0 !! k) -> is_Some (responses c1 !! k))
  /\ responses (listen_frame (Text late) c1) !! int_key (message_id c1) = Some late
  /\ is_Some (responses (snd (send_commands cmds (listen_frame (Text late) c1)))
                !! int_key (message_id c1))
  /\ forall reply,
       inr reply ∈ fst (send_commands cmds (listen_frame (Text late) c1)) ->
       frame_key reply <> Some (int_key (message_id c1)) /\ reply <> late.
Proof.
  intros Hfiled Hcall Hlate.
  pose proof Hcall as Hcall'.
  apply send_command_effect in Hcall as (Hmid & _ & Hf & Hkeep).
  destruct (Hf Hfiled) as [Hfiled1 _].
  split; [exact Hmid|]. split.
  { intros k Hk. destruct (decide (k = int_key (message_id c0 + 1))) as [->|Hne]; [|by apply Hkeep].
    (* the call's own entry: had it been there at a poll, the call would have
       returned it *)
    rewrite send_command_unfold in Hcall'.
    set (c := suspend _) in Hcall'.
    assert (is_Some (responses c !! int_key (message_id c0 + 1))) as [reply Hreply].
    { apply suspend_keeps. exact Hk. }
    change 100%nat with (S 99) in Hcall'. simpl in Hcall'. rewrite Hreply in Hcall'. discriminate. }
  pose proof (listen_frame_files c1 late _ Hlate) as Hc2.
  assert (filed_under_own_id (listen_frame (Text late) c1)) as Hfiled2
    by (by apply listen_frame_filed).
  assert (responses (listen_frame (Text late) c1) !! int_key (message_id c1) = Some late) as Hstored.
  { rewrite Hc2. apply lookup_insert_eq. }
  split; [exact Hstored|].
  destruct (send_commands cmds (listen_frame (Text late) c1)) as [replies c3] eqn:Hlater. simpl.
  destruct (send_commands_keep cmds (listen_frame (Text late) c1) (message_id c1)
              Hfiled2) with (replies := replies) (c' := c3) as [Hkept Hothers].
  - destruct (listen_frame_frame (Text late) c1) as (-> & _). lia.
  - by rewrite Hstored.
  - exact Hlater.
  - split; [exact Hkept|]. intros reply Hin. split; [by apply Hothers|].
    intros ->. by apply (Hothers late Hin).
Qed.

(** C2, as stated, fails: the only call times out (nothing ever arrives),
    then the reply for its id 1 comes and is kept in the table. *)
Lemma late_reply_is_not_dropped :
  fst (send_command "Page.reload" None (connected [])) = inl (TimeoutError "No response for Page.reload")
  /\ responses (snd (send_command "Page.reload" None (connected []))) = ∅
  /\ responses (listen_frame (Text late_reply) (snd (send_command "Page.reload" None (connected []))))
       !! int_key 1 = Some late_reply.
Proof. vm_compute. auto. Qed.

(** ** Request ids *)

Lemma step_message_id c a c' :
  step c a c' ->
  match a with
  | Allocate i => i = message_id c + 1 /\ message_id c' = i
  | _ => message_id c' = message_id c
  end.
Proof.
  intros [c1 method params | c1 | c1 id reply _ | c1 id]; simpl; auto.
  apply suspend_frame.
Qed.

Lemma step_allocate_at c i method params :
  i = message_id c + 1 ->
  step c (Allocate i)
    (set_ws_sent (ws_sent c ++ [request i method params]) (set_message_id i c)).
Proof. intros ->. apply step_allocate. Qed.

Lemma run_allocated_bounds c acts c' :
  run c acts c' ->
  message_id c <= message_id c'
  /\ Forall (fun i => message_id c < i <= message_id c') (allocated acts)
  /\ StronglySorted Z.lt (allocated acts).
Proof.
  induction 1 as [c | c a c1 acts c2 Hstep Hrun (Hle & Hall & Hsorted)].
  - split; [lia|]. split; constructor.
  - apply step_message_id in Hstep.
    destruct a as [i| |i reply|i]; simpl.
    2-4: rewrite <- Hstep; auto.
    destruct Hstep as [-> Hc1]. rewrite Hc1 in *.
    split; [lia|]. split.
    + constructor; [lia|]. eapply Forall_impl; [exact Hall|]. simpl. intros; lia.
    + constructor; [exact Hsorted|]. eapply Forall_impl; [exact Hall|]. simpl. intros; lia.
Qed.




End Correlation.

(** ** The theorems above at concrete connections *)

(** A reply with id 1 filed before any call reaches the first call; one
    with id 7 stays in the table through it. *)
Lemma unknown_reply_is_filed_witness :
  frame_key stale_reply = Some (int_key 1)
  /\ fst (send_command "Runtime.evaluate" None (listen_frame (Text stale_reply) (connected [])))
     = inr stale_reply
  /\ frame_key stray_reply = Some (int_key 7)
  /\ is_Some (responses (snd (send_command "Runtime.evaluate" None
                                (listen_frame (Text stray_reply) (connected [])))) !! int_key 7).
Proof.
  split; [reflexivity|]. split.
  - destruct (unknown_reply_is_filed (connected []) stale_reply (int_key 1)
                "Runtime.evaluate" None eq_refl) as (_ & _ & Hlater).
    apply Hlater; [reflexivity | constructor].
  - split; [reflexivity|].
    destruct (unknown_reply_is_filed (connected []) stray_reply (int_key 7)
                "Runtime.evaluate" None eq_refl) as (_ & Hother & _).
    apply Hother; [|discriminate].
    intros k data. simpl. rewrite lookup_empty. discriminate.
Defined.

(** The only call times out, the reply for its id 1 arrives, and a second
    call leaves it in the table. *)
Lemma late_reply_is_kept_witness :
  filed_under_own_id (connected [])
  /\ send_command "Page.reload" None (connected [])
     = (inl (TimeoutError "No response for Page.reload"), timed_out)
  /\ frame_key late_reply = Some (int_key (message_id timed_out))
  /\ is_Some (responses (snd (send_commands [("Runtime.evaluate", None)]
                                (listen_frame (Text late_reply) timed_out)))
                !! int_key (message_id timed_out)).
Proof.
  assert (filed_under_own_id (connected [])) as Hfiled.
  { intros k data. simpl. rewrite lookup_empty. discriminate. }
  assert (send_command "Page.reload" None (connected [])
          = (inl (TimeoutError "No response for Page.reload"), timed_out)) as Hcall.
  { vm_compute. reflexivity. }
  assert (frame_key late_reply = Some (int_key (message_id timed_out))) as Hlate.
  { vm_compute. reflexivity. }
  split; [exact Hfiled|]. split; [exact Hcall|]. split; [exact Hlate|].
  apply (late_reply_is_kept_but_never_delivered (connected []) "Page.reload" None
           "No response for Page.reload" timed_out late_reply
           [("Runtime.evaluate", None)] Hfiled Hcall Hlate).
Defined.


(** ** What the client writes to the socket *)

Section Client.

Implicit Types (c : ChromeDevTools) (selector : json) (text : string).

Lemma key_frames_length first_id text :
  List.length (key_frames first_id text) = String.length text.
Proof.
  revert first_id. induction text as [|char text IH]; intros first_id; simpl; [|rewrite IH]; reflexivity.
Qed.

(** Whatever happens to a command -- answered or timed out -- it has
    written its one frame. *)
Lemma send_command_sent method params c r c' :
  send_command method params c = (r, c') ->
  message_id c' = message_id c + 1
  /\ ws_sent c' = (ws_sent c ++ [request (message_id c + 1) method params])%list.
Proof. intros Hcall. apply send_command_effect in Hcall as (? & ? & _). auto. Qed.

(** The loop of [type_text]: one request per character, in order; a
    command that raises cuts the sequence short and ends the loop. *)
Lemma type_chars_sent text c r c' :
  type_chars text c = (r, c') ->
  exists keys,
    ws_sent c' = (ws_sent c ++ keys)%list
    /\ keys `prefix_of` key_frames (message_id c + 1) text
    /\ (forall u, r = inr u -> keys = key_frames (message_id c + 1) text).
Proof.
  revert c. induction text as [|char text IH]; intros c; simpl.
  - intros [= <- <-]. exists []. rewrite app_nil_r. auto.
  - intros [(e & Hcall & ->) | (reply & c1 & Hcall & Hrest)]%bind_cases.
    + apply send_command_sent in Hcall as [_ Hsent].
      exists [request (message_id c + 1) "Input.dispatchKeyEvent" (key_event char)].
      split; [exact Hsent|]. split; [|discriminate].
      by apply prefix_cons, prefix_nil.
    + apply send_command_sent in Hcall as [Hid Hsent].
      apply IH in Hrest as (keys & Hkeys & Hprefix & Hall).
      rewrite Hid in Hprefix, Hall.
      exists (request (message_id c + 1) "Input.dispatchKeyEvent" (key_event char) :: keys).
      split; [by rewrite Hkeys, Hsent, <- app_assoc|].
      split; [by apply prefix_cons|].
      intros u Hu. by rewrite (Hall u Hu).
Qed.

(** C7.  For every selector that resolves to a node and every text,
    [type_text] writes, after the query, the frame of a [DOM.focus]
    command for that node and then the key events of the text: one
    [Input.dispatchKeyEvent] frame of type [char] per character, carrying
    that character, in the text's order and under consecutive ids, and
    nothing else.  All of them are written when the call returns (two for
    ["ab"], ['a'] then ['b']); an initial part of them when one of the
    commands times out, which ends the call. *)
Theorem type_text_key_events selector text c node_id c1 r c' :
  query_selector selector c = (inr node_id, c1) ->
  truthy node_id = true ->
  type_text selector text c = (r, c') ->
  exists keys,
    ws_sent c' =
      (ws_sent c1 ++
       JObj [("id", JInt (message_id c1 + 1)); ("method", JStr "DOM.focus");
             ("params", JObj [("nodeId", node_id)])] :: keys)%list
    /\ keys `prefix_of` key_frames (message_id c1 + 2) text
    /\ (forall done, r = inr done ->
        keys = key_frames (message_id c1 + 2) text
        /\ List.length keys = String.length text
        /\ done = Succeeded [("success", JBool true); ("selector", selector); ("text", JStr text)]).
Proof.
  intros Hnode Htruthy. unfold type_text, bind at 1. rewrite Hnode, Htruthy. simpl.
  intros [(e & Hfocus & ->) | (reply & c2 & Hfocus & Hrest)]%bind_cases.
  - apply send_command_sent in Hfocus as [_ Hsent].
    exists []. split; [exact Hsent|]. split; [apply prefix_nil | discriminate].
  - apply send_command_sent in Hfocus as [Hid Hsent].
    apply bind_cases in Hrest as [(e & Hkeys & ->) | (u & c3 & Hkeys & Hret)].
    + apply type_chars_sent in Hkeys as (keys & Hwritten & Hprefix & _).
      exists keys. rewrite Hid in Hprefix.
      replace (message_id c1 + 2) with (message_id c1 + 1 + 1) by lia.
      split; [by rewrite Hwritten, Hsent, <- app_assoc|]. split; [exact Hprefix | discriminate].
    + apply type_chars_sent in Hkeys as (keys & Hwritten & Hprefix & Hall).
      injection Hret as <- <-.
      exists keys. rewrite Hid in Hprefix, Hall.
      replace (message_id c1 + 2) with (message_id c1 + 1 + 1) by lia.
      split; [by rewrite Hwritten, Hsent, <- app_assoc|]. split; [exact Hprefix|].
      intros done [= <-]. rewrite (Hall u eq_refl), key_frames_length. auto.
Qed.

(** ** [execute_script] *)

(** C3.  [execute_script] looks for the script's value one level too high.
    Chrome's reply to [Runtime.evaluate] holds, as its result object, an
    object whose member [result] is the remote object with the [value]; the
    code reads [value] off the result object itself.  So for every script,
    on every reply whose result object has no member [value] of its own
    (and reports no exception), [execute_script] returns success with
    [None] for the result, whatever the script computed. *)
Theorem execute_script_loses_the_value script c reply r c' :
  send_command "Runtime.evaluate"
    (Some [("expression", JStr script); ("returnByValue", JBool true)]) c = (inr reply, c') ->
  getitem reply "result" = inr (JObj r) ->
  dict_get "exceptionDetails" r = None ->
  dict_get "value" r = None ->
  execute_script script c = (inr (Succeeded [("success", JBool true); ("result", JNull)]), c').
Proof.
  intros Hcall Hresult Hplain Hvalue.
  unfold execute_script, bind. rewrite Hcall.
  unfold lift, script_outcome. rewrite Hresult. simpl. rewrite Hplain, Hvalue. reflexivity.
Qed.

(** A correlated reply may also be the remote's error object; then
    [execute_script] raises [KeyError]. *)
Lemma execute_script_third_outcome :
  fst (send_command "Runtime.evaluate" (evaluate_params "1+1")
         (connected [[error_frame 1 (-32000) "Execution context was destroyed."]]))
  = inr (JObj [("id", JInt 1);
               ("error", JObj [("code", JInt (-32000));
                               ("message", JStr "Execution context was destroyed.")])])
  /\ fst (execute_script "1+1"
            (connected [[error_frame 1 (-32000) "Execution context was destroyed."]]))
     = inl KeyError.
Proof. vm_compute. auto. Qed.

(** ** [navigate] *)

(** C4: [navigate] returns once its two requests are answered, with no
    event in the log: the second request only bears the name of the load
    event, and its reply (here the remote's refusal) ends the wait. *)
Lemma navigate_returns_without_load_event :
  fst (navigate "https://example.test" (connected navigate_replies))
  = inr (JObj [("id", JInt 1); ("result", JObj [("frameId", JStr "F1")])])
  /\ events (snd (navigate "https://example.test" (connected navigate_replies))) = [].
Proof. vm_compute. auto. Qed.

(** ** [click] *)

(** C6: on the quad of a box turned by a quarter, [click] presses and
    releases at (10, 5), a point on the box's edge; the centre of the quad
    is (5, 5). *)
Lemma click_misses_centre_of_turned_quad :
  quad_centre turned_quad = Some (5, 5)%Q
  /\ click_point (JArr (map JNum turned_quad)) = inr (JNum 10, JNum 5)
  /\ fst (click (JStr "#go") (connected (click_replies turned_quad)))
     = inr (Succeeded [("success", JBool true); ("selector", JStr "#go")])
  /\ drop 3 (ws_sent (snd (click (JStr "#go") (connected (click_replies turned_quad)))))
     = [request 4 "Input.dispatchMouseEvent" (mouse_event "mousePressed" (JNum 10) (JNum 5));
        request 5 "Input.dispatchMouseEvent" (mouse_event "mouseReleased" (JNum 10) (JNum 5))].
Proof. vm_compute. auto. Qed.

(** On a quad that is an upright rectangle listed from its top-left corner
    clockwise -- (x1,y1), (x2,y1), (x2,y2), (x1,y2) with x1 <= x2 and
    y1 <= y2 -- the point [click] computes is the centre. *)
Lemma click_point_upright (x1 y1 x2 y2 : Q) :
  (x1 <= x2)%Q -> (y1 <= y2)%Q ->
  match quad_centre [x1; y1; x2; y1; x2; y2; x1; y2] with
  | Some (cx, cy) =>
      click_point (JArr (map JNum [x1; y1; x2; y1; x2; y2; x1; y2])) = inr (JNum cx, JNum cy)
  | None => False
  end.
Proof.
  intros Hx Hy. unfold quad_centre, click_point. simpl.
  assert (forall a b : Q, (a <= b)%Q ->
            Qred (Qred (a + b) / 2) = Qred ((Qmin (Qmin a b) (Qmin b a) + Qmax (Qmax a b) (Qmax b a)) / 2))
    as Hmid.
  { intros a b Hab. apply Qred_complete.
    rewrite (Q.min_l a b Hab), (Q.min_r b a Hab), (Q.max_r a b Hab), (Q.max_l b a Hab).
    rewrite Q.min_id, Q.max_id, Qred_correct. reflexivity. }
  rewrite (Hmid x1 x2 Hx).
  assert (Qred (Qred (y1 + y2) / 2)
          = Qred ((Qmin (Qmin y1 y1) (Qmin y2 y2) + Qmax (Qmax y1 y1) (Qmax y2 y2)) / 2)) as Hmidy.
  { apply Qred_complete. rewrite !Q.min_id, !Q.max_id, (Q.min_l y1 y2 Hy), (Q.max_r y1 y2 Hy), Qred_correct.
    reflexivity. }
  rewrite Hmidy. reflexivity.
Qed.

End Client.

(** [type_text("#q", "ab")] on a page that answers every request: after the
    query, the focus request and the two key events, ['a'] then ['b']. *)
Lemma type_text_key_events_witness :
  query_selector (JStr "#q") (connected type_replies)
  = (inr (JInt 7), snd (query_selector (JStr "#q") (connected type_replies)))
  /\ truthy (JInt 7) = true
  /\ ws_sent (snd (type_text (JStr "#q") "ab" (connected type_replies)))
     = (ws_sent (snd (query_selector (JStr "#q") (connected type_replies)))
        ++ [JObj [("id", JInt 3); ("method", JStr "DOM.focus");
                  ("params", JObj [("nodeId", JInt 7)])];
            JObj [("id", JInt 4); ("method", JStr "Input.dispatchKeyEvent");
                  ("params", JObj [("type", JStr "char"); ("text", JStr "a")])];
            JObj [("id", JInt 5); ("method", JStr "Input.dispatchKeyEvent");
                  ("params", JObj [("type", JStr "char"); ("text", JStr "b")])]])%list.
Proof.
  assert (query_selector (JStr "#q") (connected type_replies)
          = (inr (JInt 7), snd (query_selector (JStr "#q") (connected type_replies)))) as Hnode.
  { vm_compute. reflexivity. }
  split; [exact Hnode|]. split; [reflexivity|].
  destruct (type_text_key_events (JStr "#q") "ab" (connected type_replies) (JInt 7) _
              (fst (type_text (JStr "#q") "ab" (connected type_replies)))
              (snd (type_text (JStr "#q") "ab" (connected type_replies)))
              Hnode eq_refl) as (keys & Hsent & _ & Hall).
  { apply surjective_pairing. }
  destruct (Hall (Succeeded [("success", JBool true); ("selector", JStr "#q"); ("text", JStr "ab")]))
    as (Hkeys & _ & _).
  { vm_compute. reflexivity. }
  rewrite Hsent, Hkeys. reflexivity.
Defined.

(** [execute_script("1+1")] on the reply Chrome sends: the remote object
    carries the value 2, and the call returns [None]. *)
Lemma execute_script_loses_the_value_witness :
  send_command "Runtime.evaluate"
    (Some [("expression", JStr "1+1"); ("returnByValue", JBool true)])
    (connected [[Text chrome_evaluate_reply]])
  = (inr chrome_evaluate_reply,
     snd (send_command "Runtime.evaluate"
            (Some [("expression", JStr "1+1"); ("returnByValue", JBool true)])
            (connected [[Text chrome_evaluate_reply]])))
  /\ getitem chrome_evaluate_reply "result"
     = inr (JObj [("result", JObj [("type", JStr "number"); ("value", JInt 2);
                                   ("description", JStr "2")])])
  /\ fst (execute_script "1+1" (connected [[Text chrome_evaluate_reply]]))
     = inr (Succeeded [("success", JBool true); ("result", JNull)])
  /\ JNull <> JInt 2.
Proof.
  assert (send_command "Runtime.evaluate"
            (Some [("expression", JStr "1+1"); ("returnByValue", JBool true)])
            (connected [[Text chrome_evaluate_reply]])
          = (inr chrome_evaluate_reply,
             snd (send_command "Runtime.evaluate"
                    (Some [("expression", JStr "1+1"); ("returnByValue", JBool true)])
                    (connected [[Text chrome_evaluate_reply]])))) as Hcall.
  { vm_compute. reflexivity. }
  split; [exact Hcall|]. split; [reflexivity|]. split; [|discriminate].
  rewrite (execute_script_loses_the_value "1+1" _ _ _ _ Hcall eq_refl eq_refl eq_refl).
  reflexivity.
Defined.

(** ** Numeric references *)

Section References.

Implicit Types (h : Host) (srv : TerminalBrowserServer) (selector rest : string).

Lemma prefix_app (p s : string) :
  String.prefix p s = true -> exists rest, s = p ++ rest.
Proof.
  revert s. induction p as [|a p IH]; intros s.
  - exists s. reflexivity.
  - destruct s as [|b s]; [discriminate|]. cbn [String.prefix].
    destruct (ascii_dec a b) as [<-|]; [|discriminate].
    intros [rest ->]%IH. exists rest. reflexivity.
Qed.

Lemma startswith_element selector :
  startswith selector "element:" = true -> exists rest, selector = "element:" ++ rest.
Proof. apply prefix_app. Qed.

Lemma prefix_of_app (p rest : string) : String.prefix p (p ++ rest) = true.
Proof.
  induction p as [|a p IH]; [by destruct rest|].
  change (String.prefix (String a p) (String a (p ++ rest)) = true). cbn [String.prefix].
  destruct (ascii_dec a a); [exact IH | congruence].
Qed.

Lemma startswith_element_app rest : startswith ("element:" ++ rest) "element:" = true.
Proof. apply prefix_of_app. Qed.

Lemma split_cons sep s : exists w ws, split sep s = w :: ws.
Proof.
  induction s as [|c s (w & ws & IH)]; simpl; [eauto|].
  destruct (Ascii.eqb c sep); [eauto|]. rewrite IH. eauto.
Qed.

(** [selector.split(":")[1]] of a selector that starts with [element:]: the
    text up to the next colon, or to the end. *)
Lemma split_element rest :
  split ":" ("element:" ++ rest) !! 1%nat = Some (hd "" (split ":" rest)).
Proof.
  destruct (split_cons ":" rest) as (w & ws & Hsplit).
  change ("element:" ++ rest)
    with (String "e" (String "l" (String "e" (String "m" (String "e" (String "n"
           (String "t" (String ":" rest)))))))).
  simpl. rewrite Hsplit. reflexivity.
Qed.

Lemma resolve_selector_plain h elements selector :
  startswith selector "element:" = false ->
  resolve_selector h elements selector = inr (Proceed (JStr selector)).
Proof. unfold resolve_selector. by intros ->. Qed.

Lemma resolve_selector_reference h (registry : list json) rest :
  resolve_selector h (JArr registry) ("element:" ++ rest) =
  match int_of_string (max_str_digits h) (hd "" (split ":" rest)) with
  | None => inr (Refuse (InvalidElementNumber ("element:" ++ rest)))
  | Some n =>
      if (1 <=? n) && (n <=? Z.of_nat (List.length registry)) then
        match registry !! Z.to_nat (n - 1) with
        | Some entry =>
            match getitem entry "selector" with
            | inl e => inl e
            | inr target => inr (Proceed target)
            end
        | None => inr (Refuse (InvalidElementNumber ("element:" ++ rest)))
        end
      else inr (Refuse (ElementNumberNotFound n))
  end.
Proof.
  unfold resolve_selector. rewrite startswith_element_app, split_element.
  destruct (int_of_string _ _) as [n|]; [|reflexivity].
  replace (1 <=? n) with (0 <? n) by lia.
  destruct (0 <? n); [|reflexivity]. simpl.
  destruct (n <=? _); [|reflexivity].
  destruct (registry !! _); reflexivity.
Qed.

(** A reference whose text does not read as a number is refused whatever
    the registry holds (its length is not even asked for). *)
Lemma resolve_selector_unreadable h elements rest :
  int_of_string (max_str_digits h) (hd "" (split ":" rest)) = None ->
  resolve_selector h elements ("element:" ++ rest)
  = inr (Refuse (InvalidElementNumber ("element:" ++ rest))).
Proof.
  intros Hint. unfold resolve_selector. rewrite startswith_element_app, split_element, Hint.
  reflexivity.
Qed.

(** C5, as amended.  The strings [browser_click] treats as numeric
    references are exactly those that start with [element:]; every other
    string goes to [click] unchanged.  For a string that starts with
    [element:], the text between that colon and the next (or the end) is
    read by [int]: when it does not read as a number the call fails with
    the invalid-format error; when it reads as N with 1 <= N <= the size of
    the registry, the call goes on with the selector of the registry's Nth
    entry; when N is out of that range (always so while the registry is
    empty) it fails with the not-found error. *)
Theorem browser_click_resolution h srv selector :
  (startswith selector "element:" = false ->
   browser_click h selector srv = on_cdp (click (JStr selector)) srv)
  /\ (forall rest, selector = "element:" ++ rest ->
      match int_of_string (max_str_digits h) (hd "" (split ":" rest)) with
      | None =>
          browser_click h selector srv = (inr (Failed (InvalidElementNumber selector)), srv)
      | Some n =>
          forall registry, last_elements srv = JArr registry ->
          if (1 <=? n) && (n <=? Z.of_nat (List.length registry)) then
            forall entry target,
              registry !! Z.to_nat (n - 1) = Some (JObj entry) ->
              dict_get "selector" entry = Some target ->
              browser_click h selector srv = on_cdp (click target) srv
          else
            browser_click h selector srv = (inr (Failed (ElementNumberNotFound n)), srv)
      end).
Proof.
  split.
  - intros Hplain. unfold browser_click, bind, gets, lift.
    rewrite (resolve_selector_plain _ _ _ Hplain). reflexivity.
  - intros rest ->.
    destruct (int_of_string _ _) as [n|] eqn:Hint.
    + intros registry Hregistry. unfold browser_click, bind, gets, lift.
      rewrite Hregistry, resolve_selector_reference, Hint.
      destruct ((1 <=? n) && _); [|reflexivity].
      intros entry target -> Htarget. simpl. rewrite Htarget. reflexivity.
    + unfold browser_click, bind, gets, lift.
      rewrite (resolve_selector_unreadable _ _ _ Hint). reflexivity.
Qed.

(** C5, as stated, fails on both sides of "exactly": [element:first] is no
    [element:<positive integer>], yet it is not passed to [click] (the call
    fails at once, and nothing is written to the socket); and
    [element:+2:hover] and [element: 2 ] are none either, yet they resolve
    to the registry's second entry. *)
Lemma selector_literal_form_not_exact :
  browser_click picture_host "element:first" (server_with_three [])
  = (inr (Failed (InvalidElementNumber "element:first")), server_with_three [])
  /\ resolve_selector picture_host (JArr three_elements) "element:+2:hover"
     = inr (Proceed (JStr "button#go"))
  /\ resolve_selector picture_host (JArr three_elements) "element: 2 "
     = inr (Proceed (JStr "button#go")).
Proof. vm_compute. auto. Qed.

End References.

(** Against a registry of three: a structural selector, the second entry,
    a number out of range, and a reference that is no number. *)
Lemma browser_click_resolution_witness :
  browser_click picture_host "a.nav" (server_with_three [])
  = on_cdp (click (JStr "a.nav")) (server_with_three [])
  /\ browser_click picture_host "element:2" (server_with_three [])
     = on_cdp (click (JStr "button#go")) (server_with_three [])
  /\ browser_click picture_host "element:4" (server_with_three [])
     = (inr (Failed (ElementNumberNotFound 4)), server_with_three [])
  /\ browser_click picture_host "element:two" (server_with_three [])
     = (inr (Failed (InvalidElementNumber "element:two")), server_with_three []).
Proof.
  split; [|split; [|split]].
  - by apply (browser_click_resolution picture_host (server_with_three []) "a.nav").
  - destruct (browser_click_resolution picture_host (server_with_three []) "element:2") as [_ Href].
    apply (Href "2" eq_refl three_elements eq_refl
             [("tag", JStr "button"); ("type", JNull); ("text", JStr "Go");
              ("x", JNum 200); ("y", JNum 300); ("width", JNum 80); ("height", JNum 24);
              ("selector", JStr "button#go")]); reflexivity.
  - destruct (browser_click_resolution picture_host (server_with_three []) "element:4") as [_ Href].
    apply (Href "4" eq_refl three_elements eq_refl).
  - destruct (browser_click_resolution picture_host (server_with_three []) "element:two") as [_ Href].
    apply (Href "two" eq_refl).
Defined.

(** ** The overlay renderer *)

Section Overlay.

Variable h : Host.

Hypothesis laws : PillowLaws (pillow h).

Implicit Types (image : Image (pillow h)) (registry : list json).

Lemma numbered_markers_size centres idx image :
  Image_size (pillow h) (numbered_markers (pillow h) image idx centres)
  = Image_size (pillow h) image.
Proof.
  revert idx image. induction centres as [|[x y] centres IH]; intros idx image; simpl; [reflexivity|].
  destruct (textbbox (pillow h) (pretty idx)) as [[[x0 y0] x1] y1].
  by rewrite IH, (text_size _ laws), (ellipse_size _ laws).
Qed.

Lemma marker_centre_reads el xy :
  marker_centre h el = inr xy -> centre_of h el xy.
Proof.
  unfold marker_centre, centre_of.
  destruct (getitem el "x") as [e|ex] eqn:Hex; [discriminate|].
  destruct (int (max_str_digits h) ex) as [e|x] eqn:Hx; [discriminate|].
  destruct (getitem el "y") as [e|ey] eqn:Hey; [discriminate|].
  destruct (int (max_str_digits h) ey) as [e|y] eqn:Hy; [discriminate|].
  intros [= <-]. exists ex, ey. simpl. auto.
Qed.

(** The loop visits the elements in order and draws, for each, the circle
    and the number at the centre it reads from it, numbering from [idx]
    on. *)
Lemma draw_markers_numbered registry idx image image' :
  draw_markers h idx registry image = inr image' ->
  exists centres,
    Forall2 (centre_of h) registry centres
    /\ image' = numbered_markers (pillow h) image idx centres.
Proof.
  revert idx image. induction registry as [|el registry IH]; intros idx image; simpl.
  - intros [= <-]. exists []. split; [constructor | reflexivity].
  - destruct (marker_centre h el) as [e|[x y]] eqn:Hcentre; [discriminate|].
    intros (centres & Hcentres & ->)%IH.
    exists ((x, y) :: centres). split; [constructor; [by apply marker_centre_reads | exact Hcentres]|].
    simpl. unfold draw_marker.
    destruct (textbbox (pillow h) (pretty idx)) as [[[x0 y0] x1] y1]. reflexivity.
Qed.

(** C8, as amended.  Whenever [_add_overlays] returns, what it returns is a
    newly saved buffer, always in PNG: the image read from the input
    bearing one marker per element of the registry, in the registry's
    order -- a circle of radius 15 around the point whose coordinates are
    the element's [x] and [y] made integers, and on it the element's
    number, 1 for the first and counting up.  It reads back as a PNG of the
    same pixel size as the input.  The input buffer is only read. *)
Theorem add_overlays_output (screenshot_bytes : bytes h) registry (out : bytes h) :
  _add_overlays h screenshot_bytes (JArr registry) = inr out ->
  exists image centres,
    Image_open (pillow h) screenshot_bytes = inr image
    /\ Forall2 (centre_of h) registry centres
    /\ List.length centres = List.length registry
    /\ out = save (pillow h) (numbered_markers (pillow h) image 1 centres) PNG
    /\ buffer_format h out = Some PNG
    /\ buffer_size h out = buffer_size h screenshot_bytes.
Proof.
  unfold _add_overlays, buffer_format, buffer_size.
  destruct (Image_open (pillow h) screenshot_bytes) as [e|image]; [discriminate|].
  destruct (ImageDraw_Draw (pillow h) image) as [e|_]; [discriminate|]. simpl.
  destruct (draw_markers h 1 registry image) as [e|image'] eqn:Hdrawn; [discriminate|].
  intros [= <-].
  apply draw_markers_numbered in Hdrawn as (centres & Hcentres & ->).
  exists image, centres.
  destruct (open_save _ laws (numbered_markers (pillow h) image 1 centres) PNG)
    as (reread & -> & Hformat & Hsize).
  rewrite Hformat, Hsize, numbered_markers_size.
  split; [reflexivity|]. split; [exact Hcentres|].
  split; [symmetry; eapply Forall2_length; exact Hcentres|]. auto.
Qed.

End Overlay.

(** The host of the examples keeps Pillow's promises. *)
Lemma picture_laws : PillowLaws (pillow picture_host).
Proof.
  split; simpl; try reflexivity.
  intros im fmt. eexists. split; [reflexivity|]. split; reflexivity.
Qed.

(** C8, as stated, fails: a JPEG frame comes back as a PNG. *)
Lemma overlays_change_the_format :
  buffer_format picture_host (blank JPEG) = Some JPEG
  /\ _add_overlays picture_host (blank JPEG) (JArr three_elements)
     = inr {| pic_format := PNG; pic_size := (800, 600);
              pic_drawn := [Ellipse ((25, -3), (55, 27)); Label (36, 6) "1";
                            Ellipse ((185, 285), (215, 315)); Label (196, 294) "2";
                            Ellipse ((305, 105), (335, 135)); Label (316, 114) "3"] |}
  /\ buffer_format picture_host
       {| pic_format := PNG; pic_size := (800, 600);
          pic_drawn := [Ellipse ((25, -3), (55, 27)); Label (36, 6) "1";
                        Ellipse ((185, 285), (215, 315)); Label (196, 294) "2";
                        Ellipse ((305, 105), (335, 135)); Label (316, 114) "3"] |}
     = Some PNG.
Proof. vm_compute. auto. Qed.

(** A blank PNG and a registry of three: three circles, each with its
    number, and the size of the input. *)
Lemma add_overlays_output_witness :
  exists out,
    _add_overlays picture_host (blank PNG) (JArr three_elements) = inr out
    /\ pic_drawn out = [Ellipse ((25, -3), (55, 27)); Label (36, 6) "1";
                        Ellipse ((185, 285), (215, 315)); Label (196, 294) "2";
                        Ellipse ((305, 105), (335, 135)); Label (316, 114) "3"]
    /\ buffer_format picture_host out = Some PNG
    /\ buffer_size picture_host out = buffer_size picture_host (blank PNG).
Proof.
  destruct (_add_overlays picture_host (blank PNG) (JArr three_elements)) as [e|out] eqn:Hout.
  { vm_compute in Hout. discriminate. }
  exists out. split; [reflexivity|].
  destruct (add_overlays_output picture_host picture_laws (blank PNG) three_elements out Hout)
    as (image & centres & _ & _ & _ & _ & Hformat & Hsize).
  split; [|split; assumption].
  vm_compute in Hout. injection Hout as <-. reflexivity.
Defined.

(** ** The registry between screenshots *)

Section Registry.

Variable h : Host.

Implicit Types (srv : TerminalBrowserServer) (c : ChromeDevTools).

Lemma keeps_ret {A} (a : A) : keeps_registry (ret a).
Proof. by intros srv. Qed.

Lemma keeps_lift {A} (r : result A) : keeps_registry (lift r).
Proof. by intros srv. Qed.

Lemma keeps_gets {A} (f : TerminalBrowserServer -> A) : keeps_registry (gets f).
Proof. by intros srv. Qed.

Lemma keeps_on_cdp {A} (m : M ChromeDevTools A) : keeps_registry (on_cdp m).
Proof. intros srv. unfold on_cdp. by destruct (m (cdp srv)). Qed.

Lemma keeps_bind {A B} (m : M TerminalBrowserServer A) (k : A -> M TerminalBrowserServer B) :
  keeps_registry m -> (forall a, keeps_registry (k a)) -> keeps_registry (bind m k).
Proof.
  intros Hm Hk srv. unfold bind. specialize (Hm srv).
  destruct (m srv) as [[e|a] srv1]; simpl in *; [exact Hm|]. by rewrite Hk.
Qed.

Lemma keeps_report (m : M TerminalBrowserServer tool_result) :
  keeps_registry m -> keeps_registry (report m).
Proof.
  intros Hm srv. unfold report, catch. specialize (Hm srv).
  by destruct (m srv) as [[e|a] srv1].
Qed.

Ltac keeps :=
  repeat first
    [ apply keeps_ret | apply keeps_lift | apply keeps_gets | apply keeps_on_cdp
    | apply keeps_report
    | apply keeps_bind; [|intros ?]
    | match goal with
      | |- keeps_registry (if ?b then _ else _) => destruct b
      | |- keeps_registry (match ?x with _ => _ end) => destruct x
      end ].

Lemma browser_click_keeps selector : keeps_registry (browser_click h selector).
Proof. unfold browser_click. keeps. Qed.

Lemma browser_type_keeps selector text : keeps_registry (browser_type h selector text).
Proof. unfold browser_type. keeps. Qed.

(** A capture without overlays finds no elements. *)
Lemma screenshot_plain full_page c shot c' :
  screenshot h full_page false c = (inr shot, c') -> snd shot = JArr [].
Proof.
  unfold screenshot.
  intros (_ & c1 & _ & Hrest)%bind_inr.
  apply bind_inr in Hrest as (result & c2 & _ & Hrest).
  apply bind_inr in Hrest as (r & c3 & _ & Hrest).
  apply bind_inr in Hrest as (b64 & c4 & _ & Hrest).
  apply bind_inr in Hrest as (decoded & c5 & _ & Hrest).
  by apply ret_inr in Hrest as [-> _].
Qed.

(** A tool that captures, stores the elements, and then only computes. *)
Lemma capture_then {X : Type} (capture : M ChromeDevTools (X * json))
    (k : X * json -> M TerminalBrowserServer tool_result) srv :
  (forall shot, unchanged (k shot)) ->
  match capture (cdp srv) with
  | (inr shot, c1) =>
      snd (report (let! shot := on_cdp capture in
                   let! _ := set_last_elements (snd shot) in k shot) srv)
      = {| cdp := c1; last_elements := snd shot |}
  | (inl e, c1) =>
      report (let! shot := on_cdp capture in
              let! _ := set_last_elements (snd shot) in k shot) srv
      = (inr (Failed (Caught e)), {| cdp := c1; last_elements := last_elements srv |})
  end.
Proof.
  intros Hk. unfold report, catch, bind, on_cdp, set_last_elements, modify.
  destruct (capture (cdp srv)) as [[e|shot] c1]; [reflexivity|]. simpl.
  specialize (Hk shot {| cdp := c1; last_elements := snd shot |}).
  destruct (k shot _) as [[e|done] srv']; exact Hk.
Qed.

(** The registry is replaced as soon as the capture has returned, whether
    or not the rest of the tool (the file, the listing, the vision model)
    then goes through; it is left alone when the capture raises. *)
Lemma browser_screenshot_registry analyze question full_page with_overlays srv :
  match screenshot h full_page with_overlays (cdp srv) with
  | (inr shot, c1) =>
      snd (browser_screenshot h analyze question full_page with_overlays srv)
      = {| cdp := c1; last_elements := snd shot |}
  | (inl e, c1) =>
      browser_screenshot h analyze question full_page with_overlays srv
      = (inr (Failed (Caught e)), {| cdp := c1; last_elements := last_elements srv |})
  end.
Proof.
  unfold browser_screenshot. apply capture_then. intros shot. unchanged.
Qed.

Lemma call_tool_keeps call :
  match call with BrowserScreenshot _ _ _ _ => False | _ => True end ->
  keeps_registry (call_tool h call).
Proof.
  destruct call; simpl; try contradiction; intros _.
  - unfold browser_navigate. keeps.
  - unfold browser_get_dom. keeps.
  - apply browser_click_keeps.
  - apply browser_type_keeps.
  - unfold browser_execute_script. keeps.
  - unfold browser_get_content. keeps.
  - unfold browser_get_console. keeps.
  - unfold browser_get_network. keeps.
Qed.

Lemma call_tool_keeps_empty call srv :
  without_overlays call ->
  last_elements srv = JArr [] ->
  last_elements (snd (call_tool h call srv)) = JArr [].
Proof.
  intros Hcall Hempty.
  destruct call as [url|analyze question full_page with_overlays| |selector|selector text|script| | |].
  2: { destruct with_overlays; [contradiction|]. simpl.
       pose proof (browser_screenshot_registry analyze question full_page false srv) as Hreg.
       destruct (screenshot h full_page false (cdp srv)) as [[e|shot] c1] eqn:Hcapture.
       - by rewrite Hreg.
       - rewrite Hreg. simpl. by apply screenshot_plain in Hcapture. }
  all: by rewrite call_tool_keeps.
Qed.

Lemma call_tools_keep_empty calls srv :
  Forall without_overlays calls ->
  last_elements srv = JArr [] ->
  last_elements (snd (call_tools h calls srv)) = JArr [].
Proof.
  intros Hcalls. revert srv. induction Hcalls as [|call calls Hcall _ IH]; intros srv Hempty; simpl.
  - exact Hempty.
  - pose proof (call_tool_keeps_empty call srv Hcall Hempty) as Hnext.
    destruct (call_tool h call srv) as [r srv1]. specialize (IH srv1 Hnext).
    by destruct (call_tools h calls srv1) as [rs srv2].
Qed.

(** With nothing in the registry, every reference that reads as a number
    is refused as not found, and nothing is sent. *)
Lemma resolve_selector_empty rest n :
  int_of_string (max_str_digits h) (hd "" (split ":" rest)) = Some n ->
  resolve_selector h (JArr []) ("element:" ++ rest) = inr (Refuse (ElementNumberNotFound n)).
Proof.
  intros Hint. rewrite resolve_selector_reference, Hint. simpl.
  change (Z.of_nat 0) with 0.
  destruct (Z.leb_spec 1 n), (Z.leb_spec n 0); simpl; try reflexivity; lia.
Qed.

(** C10.  A [browser_screenshot] that succeeds leaves in the registry the
    elements of its own capture; without overlays these are none.  From
    then on, through any tool calls other than a screenshot with overlays,
    a click or a type with a numeric reference [element:N] fails with the
    not-found error and does nothing else. *)
Theorem screenshot_replaces_registry analyze question full_page with_overlays srv fields srv1 :
  browser_screenshot h analyze question full_page with_overlays srv
  = (inr (Succeeded fields), srv1) ->
  (exists image,
     screenshot h full_page with_overlays (cdp srv) = (inr (image, last_elements srv1), cdp srv1))
  /\ (with_overlays = false ->
      last_elements srv1 = JArr []
      /\ forall calls rest n text,
           Forall without_overlays calls ->
           int_of_string (max_str_digits h) (hd "" (split ":" rest)) = Some n ->
           browser_click h ("element:" ++ rest) (snd (call_tools h calls srv1))
           = (inr (Failed (ElementNumberNotFound n)), snd (call_tools h calls srv1))
           /\ browser_type h ("element:" ++ rest) text (snd (call_tools h calls srv1))
              = (inr (Failed (ElementNumberNotFound n)), snd (call_tools h calls srv1))).
Proof.
  intros Hshot.
  pose proof (browser_screenshot_registry analyze question full_page with_overlays srv) as Hreg.
  destruct (screenshot h full_page with_overlays (cdp srv)) as [[e|[image elements]] c1] eqn:Hcapture.
  { rewrite Hreg in Hshot. discriminate. }
  rewrite Hshot in Hreg. simpl in Hreg. subst srv1. simpl.
  split; [by exists image|].
  intros ->. apply screenshot_plain in Hcapture. simpl in Hcapture. subst elements.
  split; [reflexivity|].
  intros calls rest n text Hcalls Hint.
  set (srv1 := {| cdp := c1; last_elements := JArr [] |}).
  pose proof (call_tools_keep_empty calls srv1 Hcalls eq_refl) as Hempty.
  unfold browser_click, browser_type, bind, gets, lift.
  rewrite Hempty, (resolve_selector_empty rest n Hint). split; reflexivity.
Qed.

End Registry.

(** A screenshot without overlays on a server that had three elements, then
    two other tools, then a click on [element:2]. *)
Lemma screenshot_replaces_registry_witness :
  exists fields srv1,
    browser_screenshot picture_host false None false false (server_with_three capture_replies)
    = (inr (Succeeded fields), srv1)
    /\ last_elements srv1 = JArr []
    /\ Forall without_overlays [BrowserGetConsole; BrowserClick "element:9"]
    /\ int_of_string (max_str_digits picture_host) (hd "" (split ":" "2")) = Some 2
    /\ browser_click picture_host "element:2"
         (snd (call_tools picture_host [BrowserGetConsole; BrowserClick "element:9"] srv1))
       = (inr (Failed (ElementNumberNotFound 2)),
          snd (call_tools picture_host [BrowserGetConsole; BrowserClick "element:9"] srv1)).
Proof.
  destruct (browser_screenshot picture_host false None false false
              (server_with_three capture_replies)) as [[e|[fields|why]] srv1] eqn:Hshot;
    [vm_compute in Hshot; discriminate | | vm_compute in Hshot; discriminate].
  exists fields, srv1. split; [reflexivity|].
  destruct (screenshot_replaces_registry picture_host false None false false
              (server_with_three capture_replies) fields srv1 Hshot) as [_ Hplain].
  destruct (Hplain eq_refl) as [Hempty Hlater].
  assert (Forall without_overlays [BrowserGetConsole; BrowserClick "element:9"]) as Hcalls.
  { repeat constructor. }
  split; [exact Hempty|]. split; [exact Hcalls|]. split; [reflexivity|].
  apply (Hlater [BrowserGetConsole; BrowserClick "element:9"] "2" 2 "" Hcalls eq_refl).
Defined.

(** ** More on the receive loop and the wait *)

Section MoreCorrelation.

Implicit Types (c : ChromeDevTools) (k : key) (m : ws_message).

Lemma listen_frame_logs m c :
  events c `prefix_of` events (listen_frame m c).
Proof.
  destruct (listen_frame_cases m c) as [-> | [(d & _ & ->) | (d & k & _ & _ & ->)]]; simpl;
    try reflexivity.
  by apply prefix_app_r.
Qed.

Lemma _listen_logs batch c : events c `prefix_of` events (_listen batch c).
Proof.
  revert c. induction batch as [|m batch IH]; intros c; simpl; [reflexivity|].
  destruct (listening c); [|reflexivity].
  etrans; [apply listen_frame_logs | apply IH].
Qed.

Lemma suspend_logs c : events c `prefix_of` events (suspend c).
Proof.
  unfold suspend. destruct (ws_incoming c) as [|batch later]; [reflexivity|].
  apply (_listen_logs batch (set_ws_incoming later c)).
Qed.

Lemma step_logs c a c' :
  step c a c' -> events c `prefix_of` events c' /\ ws_sent c `prefix_of` ws_sent c'.
Proof.
  intros [c1 method params | c1 | c1 id reply _ | c1 id]; simpl.
  - split; [reflexivity | by apply prefix_app_r].
  - split; [apply suspend_logs|]. by destruct (suspend_frame c1) as [_ ->].
  - split; reflexivity.
  - split; reflexivity.
Qed.

Lemma run_logs c acts c' :
  run c acts c' ->
  events c `prefix_of` events c' /\ ws_sent c `prefix_of` ws_sent c'.
Proof.
  induction 1 as [c | c a c1 acts c2 Hstep _ [IHe IHs]]; [split; reflexivity|].
  apply step_logs in Hstep as [He Hs]. split; etrans; eassumption.
Qed.


(** The receive task once dead stays dead. *)
Lemma listen_frame_dead m c : listening c = false -> listening (listen_frame m c) = false.
Proof.
  destruct (listen_frame_cases m c) as [-> | [(d & _ & ->) | (d & k & _ & _ & ->)]]; auto.
Qed.

Lemma _listen_dead batch c : listening c = false -> _listen batch c = c.
Proof. destruct batch; simpl; [reflexivity|]. by intros ->. Qed.

Lemma _listen_malformed batch c :
  Malformed ∈ batch -> listening (_listen batch c) = false.
Proof.
  revert c. induction batch as [|m batch IH]; intros c Hin; [inversion Hin|]. simpl.
  destruct (listening c) eqn:Halive; [|exact Halive].
  apply elem_of_cons in Hin as [<-|Hin]; [|by apply IH].
  by rewrite _listen_dead.
Qed.

Lemma suspend_dead c :
  listening c = false ->
  listening (suspend c) = false /\ events (suspend c) = events c
  /\ responses (suspend c) = responses c.
Proof.
  intros Hdead. unfold suspend. destruct (ws_incoming c) as [|batch later]; [auto|].
  by rewrite _listen_dead.
Qed.

Lemma step_dead c a c' :
  step c a c' -> listening c = false ->
  listening c' = false /\ events c' = events c
  /\ forall k data, responses c' !! k = Some data -> responses c !! k = Some data.
Proof.
  intros [c1 method params | c1 | c1 id reply _ | c1 id] Hdead; simpl; auto.
  - destruct (suspend_dead c1 Hdead) as (-> & -> & ->). auto.
  - split; [exact Hdead|]. split; [reflexivity|].
    intros k data [_ Hd]%lookup_delete_Some. exact Hd.
Qed.

(** One frame that [json.loads] rejects ends the receive task for good:
    after the batch it came in, along any run, no event is logged any more
    and no reply is filed (the table can only lose entries), whatever
    arrives. *)
Theorem malformed_frame_ends_listening batch c acts c' :
  Malformed ∈ batch ->
  run (_listen batch c) acts c' ->
  listening c' = false
  /\ events c' = events (_listen batch c)
  /\ forall k data, responses c' !! k = Some data ->
                    responses (_listen batch c) !! k = Some data.
Proof.
  intros Hdead%(_listen_malformed batch c) Hrun.
  induction Hrun as [c0 | c0 a c1 acts c2 Hstep _ IH]; [auto|].
  apply step_dead in Hstep as (Hdead1 & Hevents & Htable); [|exact Hdead].
  destruct (IH Hdead1) as (? & ? & Hrest).
  split; [assumption|]. split; [congruence|]. auto.
Qed.

(** *** When a call times out *)

Lemma suspend_incoming c : ws_incoming (suspend c) = tl (ws_incoming c).
Proof.
  unfold suspend. destruct (ws_incoming c) as [|batch later] eqn:Hin; [by rewrite Hin|].
  by destruct (_listen_frame batch (set_ws_incoming later c)) as (_ & _ & ->).
Qed.

Lemma quiet_take k n (incoming : list (list ws_message)) :
  Forall (quiet k) (take (S n) incoming) ->
  quiet k (hd [] incoming) /\ Forall (quiet k) (take n (tl incoming)).
Proof.
  destruct incoming as [|batch later]; simpl.
  - intros _. split; [constructor|]. rewrite take_nil. constructor.
  - intros Hq. by inversion Hq.
Qed.

Lemma wait_response_quiet polls method id c :
  responses c !! int_key id = None ->
  Forall (quiet (int_key id)) (take polls (ws_incoming c)) ->
  fst (wait_response (S polls) method id c) = inl (TimeoutError ("No response for " ++ method)).
Proof.
  revert c. induction polls as [|polls IH]; intros c Hnone Hquiet.
  - simpl. rewrite Hnone. reflexivity.
  - change (wait_response (S (S polls)) method id c)
      with (match responses c !! int_key id with
            | Some reply => (inr reply, pop_response id c)
            | None => (let! _ := sleep in wait_response (S polls) method id) c
            end).
    rewrite Hnone. unfold bind, sleep, modify.
    apply quiet_take in Hquiet as [Hhead Htail].
    specialize (IH (suspend c)).
    rewrite suspend_other, suspend_incoming in IH by exact Hhead.
    specialize (IH Hnone Htail).
    destruct (wait_response (S polls) method id (suspend c)) as [[e|reply] c1]; exact IH.
Qed.

(** A call whose reply is not in the table, and does not arrive in the
    hundred suspensions before its hundred polls (the one while the request
    is written, and the first ninety-nine sleeps), raises [TimeoutError]
    naming the method. *)
Theorem unanswered_call_times_out method params c :
  responses c !! int_key (message_id c + 1) = None ->
  Forall (quiet (int_key (message_id c + 1))) (take 100 (ws_incoming c)) ->
  fst (send_command method params c) = inl (TimeoutError ("No response for " ++ method)).
Proof.
  intros Hnone Hquiet. rewrite send_command_unfold.
  set (c1 := set_ws_sent _ _).
  change 100%nat with (S 99) in Hquiet. apply quiet_take in Hquiet as [Hhead Htail].
  apply wait_response_quiet.
  - rewrite suspend_other; [exact Hnone | exact Hhead].
  - rewrite suspend_incoming. exact Htail.
Qed.

Lemma set_ws_incoming_same c : set_ws_incoming (ws_incoming c) c = c.
Proof. by destruct c. Qed.

Lemma suspend_empty_batch c later :
  ws_incoming c = [] :: later -> suspend c = set_ws_incoming later c.
Proof. unfold suspend. by intros ->. Qed.

Lemma suspend_single_frame c m later :
  ws_incoming c = [m] :: later -> listening c = true ->
  suspend c = listen_frame m (set_ws_incoming later c).
Proof.
  unfold suspend. intros -> Halive. cbn [_listen].
  change (listening (set_ws_incoming later c)) with (listening c). by rewrite Halive.
Qed.

Lemma wait_response_idle polls method id c later :
  responses c !! int_key id = None ->
  ws_incoming c = (replicate polls [] ++ later)%list ->
  wait_response (S polls) method id c
  = (inl (TimeoutError ("No response for " ++ method)), suspend (set_ws_incoming later c)).
Proof.
  revert c. induction polls as [|polls IH]; intros c Hnone Hincoming.
  - simpl in *. rewrite Hnone, <- Hincoming, set_ws_incoming_same. reflexivity.
  - change (wait_response (S (S polls)) method id c)
      with (match responses c !! int_key id with
            | Some reply => (inr reply, pop_response id c)
            | None => (let! _ := sleep in wait_response (S polls) method id) c
            end).
    rewrite Hnone. unfold bind, sleep, modify.
    assert (ws_incoming c = [] :: (replicate polls [] ++ later)%list) as Hhead by exact Hincoming.
    rewrite (suspend_empty_batch c _ Hhead).
    rewrite (IH (set_ws_incoming (replicate polls [] ++ later) c) Hnone eq_refl).
    reflexivity.
Qed.

(** The hundredth sleep is followed by no poll: a reply that arrives only
    then is filed by the receive loop, and the call still raises
    [TimeoutError]; the reply stays behind in the table. *)
Theorem reply_during_last_sleep_is_missed method params c data later :
  listening c = true ->
  responses c !! int_key (message_id c + 1) = None ->
  ws_incoming c = (replicate 100 [] ++ [Text data] :: later)%list ->
  frame_key data = Some (int_key (message_id c + 1)) ->
  fst (send_command method params c) = inl (TimeoutError ("No response for " ++ method))
  /\ responses (snd (send_command method params c)) !! int_key (message_id c + 1) = Some data.
Proof.
  intros Halive Hnone Hincoming Hdata. rewrite send_command_unfold.
  set (c1 := set_ws_sent _ _).
  assert (ws_incoming c1 = [] :: (replicate 99 [] ++ [Text data] :: later)%list) as Hc1
    by exact Hincoming.
  rewrite (suspend_empty_batch c1 _ Hc1).
  rewrite (wait_response_idle 99 method (message_id c + 1)
             (set_ws_incoming (replicate 99 [] ++ [Text data] :: later) c1)
             ([Text data] :: later) Hnone eq_refl).
  split; [reflexivity|]. cbn [snd].
  rewrite (suspend_single_frame
             (set_ws_incoming ([Text data] :: later)
                (set_ws_incoming (replicate 99 [] ++ [Text data] :: later) c1))
             (Text data) later eq_refl Halive).
  rewrite (listen_frame_files _ data _ Hdata). apply lookup_insert_eq.
Qed.

Lemma wait_response_pops polls method id c reply c' :
  wait_response polls method id c = (inr reply, c') ->
  responses c' !! int_key id = None.
Proof.
  revert c. induction polls as [|polls IH]; intros c; simpl; [discriminate|].
  destruct (responses c !! int_key id) as [found|].
  - intros [= _ <-]. simpl. apply lookup_delete_eq.
  - unfold bind, sleep, modify. apply IH.
Qed.

(** A reply is handed out once: the call that returns it has taken it out
    of the table, so its id has no entry any more when the call ends. *)
Theorem returned_reply_is_removed method params c reply c' :
  send_command method params c = (inr reply, c') ->
  responses c' !! int_key (message_id c') = None.
Proof.
  intros Hcall. pose proof Hcall as [Hid _]%send_command_sent.
  rewrite send_command_unfold in Hcall. apply wait_response_pops in Hcall.
  by rewrite Hid.
Qed.

(** Calls made one after the other write exactly one frame each, in the
    order of the calls, whether they are answered or time out: the object
    with the call's id, its method and its parameters -- the empty object
    when it has none -- and nothing else; the ids are consecutive from the
    counter plus one, and each call has an outcome. *)
Theorem send_commands_wire cmds c :
  ws_sent (snd (send_commands cmds c)) = (ws_sent c ++ command_frames (message_id c + 1) cmds)%list
  /\ message_id (snd (send_commands cmds c)) = message_id c + Z.of_nat (List.length cmds)
  /\ List.length (fst (send_commands cmds c)) = List.length cmds.
Proof.
  revert c. induction cmds as [|[method params] cmds IH]; intros c.
  - simpl. rewrite app_nil_r. split; [reflexivity|]. split; [lia | reflexivity].
  - simpl. destruct (send_command method params c) as [r c1] eqn:Hcall.
    apply send_command_sent in Hcall as [Hid Hsent].
    specialize (IH c1). destruct (send_commands cmds c1) as [rs c2]. simpl in *.
    destruct IH as (Hwire & Hcount & Hlen).
    rewrite Hwire, Hcount, Hsent, Hid, Hlen, <- app_assoc.
    split; [reflexivity|]. split; [lia | reflexivity].
Qed.

End MoreCorrelation.

(** ** More on the commands *)

Section MoreClient.

Implicit Types (c : ChromeDevTools) (selector : json).

(** A query that returns has written its two requests, the second with the
    root id the first reply gave. *)
Lemma query_selector_sent selector c node_id c1 :
  query_selector selector c = (inr node_id, c1) ->
  exists root_id,
    message_id c1 = message_id c + 2
    /\ ws_sent c1 =
       (ws_sent c ++ [request (message_id c + 1) "DOM.getDocument" None;
                      request (message_id c + 2) "DOM.querySelector"
                        (Some [("nodeId", root_id); ("selector", selector)])])%list.
Proof.
  unfold query_selector, get_dom.
  intros (doc & c2 & Hdoc & Hrest)%bind_inr.
  apply bind_inr in Hdoc as (reply1 & c3 & Hcall1 & Hdoc).
  apply lift_inr in Hdoc as [_ ->].
  apply bind_inr in Hrest as (root & c4 & [_ ->]%lift_inr & Hrest).
  apply bind_inr in Hrest as (root_id & c5 & [_ ->]%lift_inr & Hrest).
  apply bind_inr in Hrest as (reply2 & c6 & Hcall2 & Hrest).
  apply bind_inr in Hrest as (r & c7 & [_ ->]%lift_inr & Hrest).
  apply lift_inr in Hrest as [_ ->].
  apply send_command_sent in Hcall1 as [Hid1 Hsent1].
  apply send_command_sent in Hcall2 as [Hid2 Hsent2].
  exists root_id. split; [lia|].
  rewrite Hsent2, Hsent1, Hid1, <- app_assoc.
  replace (message_id c + 1 + 1) with (message_id c + 2) by lia. reflexivity.
Qed.

(** When the query finds no node (a null, zero or missing [nodeId]),
    [click] and [type_text] return the element-not-found failure and write
    nothing beyond the query's two requests: no box model, mouse, focus or
    key request. *)
Theorem unresolved_selector_stops_the_action selector (text : string) c node_id c1 :
  query_selector selector c = (inr node_id, c1) ->
  truthy node_id = false ->
  click selector c = (inr (Failed (ElementNotFound selector)), c1)
  /\ type_text selector text c = (inr (Failed (ElementNotFound selector)), c1)
  /\ List.length (ws_sent c1) = (List.length (ws_sent c) + 2)%nat.
Proof.
  intros Hquery Hfalsy. unfold click, type_text, bind. rewrite Hquery, Hfalsy. simpl.
  split; [reflexivity|]. split; [reflexivity|].
  apply query_selector_sent in Hquery as (root_id & _ & ->).
  rewrite length_app. reflexivity.
Qed.

(** A [click] that succeeds has written, after the query, exactly three
    frames: a [DOM.getBoxModel] command for the node found, then an
    [Input.dispatchMouseEvent] of type [mousePressed] and one of type
    [mouseReleased], left button, click count 1.  Both carry the same point,
    and that point comes from the content quad [box] of the reply to the
    box-model command: [x] is [(box[0] + box[2]) / 2] and [y] is
    [(box[1] + box[5]) / 2]. *)
Theorem click_presses_then_releases selector c fields c' :
  click selector c = (inr (Succeeded fields), c') ->
  exists node_id c1 reply c2 r model box x y,
    query_selector selector c = (inr node_id, c1)
    /\ send_command "DOM.getBoxModel" (Some [("nodeId", node_id)]) c1 = (inr reply, c2)
    /\ getitem reply "result" = inr r
    /\ getitem r "model" = inr model
    /\ getitem model "content" = inr box
    /\ half_sum box 0 2 x
    /\ half_sum box 1 5 y
    /\ ws_sent c' =
       (ws_sent c1 ++
        [JObj [("id", JInt (message_id c1 + 1)); ("method", JStr "DOM.getBoxModel");
               ("params", JObj [("nodeId", node_id)])];
         JObj [("id", JInt (message_id c1 + 2)); ("method", JStr "Input.dispatchMouseEvent");
               ("params", JObj [("type", JStr "mousePressed"); ("x", x); ("y", y);
                                ("button", JStr "left"); ("clickCount", JInt 1)])];
         JObj [("id", JInt (message_id c1 + 3)); ("method", JStr "Input.dispatchMouseEvent");
               ("params", JObj [("type", JStr "mouseReleased"); ("x", x); ("y", y);
                                ("button", JStr "left"); ("clickCount", JInt 1)])]])%list
    /\ fields = [("success", JBool true); ("selector", selector)].
Proof.
  unfold click. intros (node_id & c1 & Hquery & Hrest)%bind_inr.
  destruct (truthy node_id); simpl in Hrest; [|discriminate].
  apply bind_inr in Hrest as (reply & c2 & Hbox & Hrest).
  apply bind_inr in Hrest as (r & c3 & [Hr ->]%lift_inr & Hrest).
  apply bind_inr in Hrest as (model & c4 & [Hmodel ->]%lift_inr & Hrest).
  apply bind_inr in Hrest as (box & c5 & [Hcontent ->]%lift_inr & Hrest).
  apply bind_inr in Hrest as ([x y] & c6 & [Hpoint ->]%lift_inr & Hrest).
  apply bind_inr in Hrest as (pressed & c7 & Hpress & Hrest).
  apply bind_inr in Hrest as (released & c8 & Hrelease & Hrest).
  injection Hrest as <- <-.
  pose proof Hbox as [Hid1 Hsent1]%send_command_sent.
  apply send_command_sent in Hpress as [Hid2 Hsent2].
  apply send_command_sent in Hrelease as [_ Hsent3].
  exists node_id, c1, reply, c2, r, model, box, x, y.
  split; [exact Hquery|]. split; [exact Hbox|].
  split; [exact Hr|]. split; [exact Hmodel|]. split; [exact Hcontent|].
  unfold click_point in Hpoint.
  destruct (index box 0) as [e|b0] eqn:H0; [discriminate|].
  destruct (index box 2) as [e|b2] eqn:H2; [discriminate|].
  destruct (add b0 b2) as [e|sx] eqn:Hsx; [discriminate|].
  destruct (half sx) as [e|x'] eqn:Hx; [discriminate|].
  destruct (index box 1) as [e|b1] eqn:H1; [discriminate|].
  destruct (index box 5) as [e|b5] eqn:H5; [discriminate|].
  destruct (add b1 b5) as [e|sy] eqn:Hsy; [discriminate|].
  destruct (half sy) as [e|y'] eqn:Hy; [discriminate|].
  injection Hpoint as <- <-.
  split; [by exists b0, b2, sx|]. split; [by exists b1, b5, sy|].
  split; [|reflexivity].
  rewrite Hsent3, Hsent2, Hsent1, Hid2, Hid1, <- !app_assoc. simpl.
  replace (message_id c1 + 1 + 1) with (message_id c1 + 2) by lia.
  replace (message_id c1 + 2 + 1) with (message_id c1 + 3) by lia. reflexivity.
Qed.

(** [navigate] writes the frame of [Page.navigate] with the url.  When
    that command is not answered, [navigate] raises what it raised and has
    written nothing more: the second frame is never written.  When it is
    answered, only that one frame had been written by then; [navigate]
    then writes a command named [Page.loadEventFired], without
    parameters, and either returns the reply to the first command -- the
    frame that carries the id of [Page.navigate] -- or raises what the
    second command raised. *)
Theorem navigate_returns_first_reply url c r c' :
  navigate url c = (r, c') ->
  match send_command "Page.navigate" (Some [("url", JStr url)]) c with
  | (inl e, c1) =>
      r = inl e
      /\ c' = c1
      /\ ws_sent c' =
         (ws_sent c ++
          [JObj [("id", JInt (message_id c + 1)); ("method", JStr "Page.navigate");
                 ("params", JObj [("url", JStr url)])]])%list
  | (inr result, c1) =>
      ws_sent c1 =
        (ws_sent c ++
         [JObj [("id", JInt (message_id c + 1)); ("method", JStr "Page.navigate");
                ("params", JObj [("url", JStr url)])]])%list
      /\ ws_sent c' =
         (ws_sent c ++
          [JObj [("id", JInt (message_id c + 1)); ("method", JStr "Page.navigate");
                 ("params", JObj [("url", JStr url)])];
           JObj [("id", JInt (message_id c + 2)); ("method", JStr "Page.loadEventFired");
                 ("params", JObj [])]])%list
      /\ match r with
         | inr returned =>
             returned = result
             /\ (filed_under_own_id c -> frame_key returned = Some (int_key (message_id c + 1)))
         | inl e => send_command "Page.loadEventFired" None c1 = (inl e, c')
         end
  end.
Proof.
  unfold navigate, bind at 1.
  destruct (send_command "Page.navigate" (Some [("url", JStr url)]) c) as [[e|result] c1] eqn:Hfirst.
  - intros [= <- <-]. apply send_command_sent in Hfirst as [_ ->]. auto.
  - pose proof Hfirst as (Hid & Hsent & Hf & _)%send_command_effect.
    unfold bind.
    destruct (send_command "Page.loadEventFired" None c1) as [[e|reply] c2] eqn:Hsecond;
      apply send_command_sent in Hsecond as [_ Hsent2]; intros [= <- <-];
      (split; [exact Hsent|]);
      (split; [rewrite Hsent2, Hsent, Hid, <- app_assoc;
               replace (message_id c + 1 + 1) with (message_id c + 2) by lia; reflexivity|]).
    + reflexivity.
    + split; [reflexivity|]. intros Hfiled. destruct (Hf Hfiled) as [_ Hkey]. by apply Hkey.
Qed.

End MoreClient.

(** ** More on the tools *)

Section MoreTools.

Variable h : Host.

Implicit Types (c : ChromeDevTools) (srv : TerminalBrowserServer).

(** A full-page capture that returns has written the frame of
    [Page.getLayoutMetrics], then that of
    [Emulation.setDeviceMetricsOverride] carrying the [width] and [height]
    of the [contentSize] in the reply to the first, scale factor 1 and not
    mobile, then that of [Page.captureScreenshot] (then, with overlays, the
    element query): no frame after the capture puts the viewport back. *)
Theorem full_page_capture_requests with_overlays c shot c' :
  screenshot h true with_overlays c = (inr shot, c') ->
  exists layout c1 r size width height,
    send_command "Page.getLayoutMetrics" None c = (inr layout, c1)
    /\ getitem layout "result" = inr r
    /\ getitem r "contentSize" = inr size
    /\ getitem size "width" = inr width
    /\ getitem size "height" = inr height
    /\ ws_sent c' =
       (ws_sent c ++
        [JObj [("id", JInt (message_id c + 1)); ("method", JStr "Page.getLayoutMetrics");
               ("params", JObj [])];
         JObj [("id", JInt (message_id c + 2));
               ("method", JStr "Emulation.setDeviceMetricsOverride");
               ("params", JObj [("width", width); ("height", height);
                                ("deviceScaleFactor", JInt 1); ("mobile", JBool false)])];
         JObj [("id", JInt (message_id c + 3)); ("method", JStr "Page.captureScreenshot");
               ("params", JObj [])]] ++
        (if with_overlays
         then [JObj [("id", JInt (message_id c + 4)); ("method", JStr "Runtime.evaluate");
                     ("params", JObj [("expression", JStr interactive_elements_script);
                                      ("returnByValue", JBool true)])]]
         else []))%list.
Proof.
  unfold screenshot, capture_full_page.
  intros (u & c1 & Hfull & Hrest)%bind_inr.
  apply bind_inr in Hfull as (layout & c2 & Hlayout & Hfull).
  apply bind_inr in Hfull as (r & ? & [Hr ->]%lift_inr & Hfull).
  apply bind_inr in Hfull as (size & ? & [Hsize ->]%lift_inr & Hfull).
  apply bind_inr in Hfull as (width & ? & [Hwidth ->]%lift_inr & Hfull).
  apply bind_inr in Hfull as (r' & ? & [Hr' ->]%lift_inr & Hfull).
  apply bind_inr in Hfull as (size' & ? & [Hsize' ->]%lift_inr & Hfull).
  apply bind_inr in Hfull as (height & ? & [Hheight ->]%lift_inr & Hfull).
  apply bind_inr in Hfull as (done & c3 & Hoverride & Hfull).
  injection Hfull as _ <-.
  apply bind_inr in Hrest as (result & c4 & Hcapture & Hrest).
  apply bind_inr in Hrest as (r2 & ? & [_ ->]%lift_inr & Hrest).
  apply bind_inr in Hrest as (b64 & ? & [_ ->]%lift_inr & Hrest).
  apply bind_inr in Hrest as (decoded & ? & [_ ->]%lift_inr & Hrest).
  rewrite Hr in Hr'. injection Hr' as <-.
  rewrite Hsize in Hsize'. injection Hsize' as <-.
  pose proof Hlayout as [Hid1 Hsent1]%send_command_sent.
  apply send_command_sent in Hoverride as [Hid2 Hsent2].
  apply send_command_sent in Hcapture as [Hid3 Hsent3].
  exists layout, c2, r, size, width, height.
  split; [exact Hlayout|]. split; [exact Hr|]. split; [exact Hsize|].
  split; [exact Hwidth|]. split; [exact Hheight|].
  destruct with_overlays.
  - apply bind_inr in Hrest as (elements & c5 & Helements & Hrest).
    apply bind_inr in Hrest as (annotated & ? & [_ ->]%lift_inr & Hrest).
    injection Hrest as _ <-.
    unfold get_interactive_elements in Helements.
    apply bind_inr in Helements as (reply & c6 & Hevaluate & Helements).
    apply bind_inr in Helements as (r3 & ? & [_ ->]%lift_inr & Helements).
    apply lift_inr in Helements as [_ ->].
    apply send_command_sent in Hevaluate as [_ Hsent4].
    rewrite Hsent4, Hsent3, Hsent2, Hsent1, Hid3, Hid2, Hid1, <- !app_assoc. simpl.
    replace (message_id c + 1 + 1) with (message_id c + 2) by lia.
    replace (message_id c + 2 + 1) with (message_id c + 3) by lia.
    replace (message_id c + 3 + 1) with (message_id c + 4) by lia. reflexivity.
  - injection Hrest as _ <-.
    rewrite Hsent3, Hsent2, Hsent1, Hid2, Hid1, <- !app_assoc. simpl.
    replace (message_id c + 1 + 1) with (message_id c + 2) by lia.
    replace (message_id c + 2 + 1) with (message_id c + 3) by lia. reflexivity.
Qed.

(** *** The event queries *)

Lemma select_network (evs : list json) :
  Forall plain_event evs ->
  select (fun e => match get e "method" (JStr "") with
                   | inl x => inl x
                   | inr m => str_startswith m "Network."
                   end) evs
  = inr (List.filter is_network_event evs).
Proof.
  induction 1 as [|e evs He _ IH]; simpl; [reflexivity|]. rewrite IH.
  destruct e as [| | | | |d]; simpl in He; try contradiction. simpl.
  destruct (dict_get "method" d) as [[| | |s| |]|]; simpl in *; try contradiction; reflexivity.
Qed.

(** On a log of objects whose [method], where present, is a string,
    [get_network_activity] returns exactly the events whose method starts
    with [Network.], whole and in the order they arrived, and leaves the
    log as it was (an event without a method is skipped). *)
Theorem network_activity_is_the_network_events c :
  Forall plain_event (events c) ->
  get_network_activity c = (inr (JArr (List.filter is_network_event (events c))), c).
Proof.
  intros Hplain. unfold get_network_activity, bind, gets, lift, ret.
  rewrite (select_network _ Hplain). reflexivity.
Qed.

Lemma select_raises (keep : json -> result bool) (evs : list json) e :
  (forall x err, keep x = inl err -> err = AttributeError) ->
  e ∈ evs -> keep e = inl AttributeError ->
  select keep evs = inl AttributeError.
Proof.
  intros Honly Hin He. induction evs as [|x evs IH]; [inversion Hin|]. simpl.
  destruct (keep x) as [err|b] eqn:Hx.
  - by rewrite (Honly x err Hx).
  - apply elem_of_cons in Hin as [->|Hin]; [congruence|]. by rewrite (IH Hin).
Qed.

(** A frame that is not an object and passes the id test (a JSON list, say)
    is logged as an event like any other; from then on, along any run of the
    connection, both event queries raise [AttributeError] at that entry,
    the log being never pruned. *)
Theorem logged_non_object_breaks_the_queries e c acts c' :
  e ∈ events c -> is_object e = false ->
  run c acts c' ->
  fst (get_network_activity c') = inl AttributeError
  /\ fst (get_console_messages c') = inl AttributeError.
Proof.
  intros Hin Hshape [[later Hlog] _]%run_logs.
  assert (e ∈ events c') as Hin' by (rewrite Hlog; apply elem_of_app; by left).
  unfold get_network_activity, get_console_messages, bind, gets, lift.
  split.
  - rewrite (select_raises _ (events c') e); [reflexivity| |exact Hin'|].
    + intros x err Hx. destruct x as [| | | | |d]; simpl in Hx; try congruence.
      destruct (dict_get "method" d) as [[| | |s| |]|]; simpl in Hx; congruence.
    + by destruct e.
  - rewrite (select_raises _ (events c') e); [reflexivity| |exact Hin'|].
    + intros x err Hx. destruct x as [| | | | |d]; simpl in Hx; congruence.
    + by destruct e.
Qed.

(** *** What the tools do with an exception *)

(** Three of the browser tools have no [try]: an exception of the
    client's [click], [type_text] or [execute_script] (a timeout, a reply of
    an unexpected shape) leaves [browser_click], [browser_type] and
    [browser_execute_script] as it was raised. *)
Theorem unwrapped_tools_raise selector target text script srv e c' :
  resolve_selector h (last_elements srv) selector = inr (Proceed target) ->
  (click target (cdp srv) = (inl e, c') ->
   fst (browser_click h selector srv) = inl e)
  /\ (type_text target text (cdp srv) = (inl e, c') ->
      fst (browser_type h selector text srv) = inl e)
  /\ (execute_script script (cdp srv) = (inl e, c') ->
      fst (browser_execute_script script srv) = inl e).
Proof.
  intros Htarget.
  unfold browser_click, browser_type, browser_execute_script, bind, gets, lift, on_cdp.
  rewrite Htarget. repeat split; by intros ->.
Qed.

(** *** The registry when a screenshot fails *)

(** A screenshot that fails after the capture (here: the file cannot be
    written) has already replaced the registry with the elements of the
    capture; one that fails in the capture itself leaves the registry as it
    was.  Either way the tool returns the failure dict of what was
    raised. *)
Theorem failed_screenshot_and_registry analyze question full_page with_overlays srv e c1 :
  (forall image elements,
     screenshot h full_page with_overlays (cdp srv) = (inr (image, elements), c1) ->
     write_file h screenshot_path image = inl e ->
     browser_screenshot h analyze question full_page with_overlays srv
     = (inr (Failed (Caught e)), {| cdp := c1; last_elements := elements |}))
  /\ (screenshot h full_page with_overlays (cdp srv) = (inl e, c1) ->
      browser_screenshot h analyze question full_page with_overlays srv
      = (inr (Failed (Caught e)), {| cdp := c1; last_elements := last_elements srv |})).
Proof.
  split.
  - intros image elements Hcapture Hwrite.
    unfold browser_screenshot, report, catch, bind, on_cdp, set_last_elements, modify, lift.
    rewrite Hcapture. simpl. rewrite Hwrite. reflexivity.
  - intros Hcapture.
    pose proof (browser_screenshot_registry h analyze question full_page with_overlays srv) as Hreg.
    by rewrite Hcapture in Hreg.
Qed.

(** A reference whose number is zero or negative is refused as not found
    without the registry being looked at -- whatever [last_elements]
    holds -- and nothing is sent. *)
Theorem nonpositive_reference_is_not_found rest n text srv :
  int_of_string (max_str_digits h) (hd "" (split ":" rest)) = Some n ->
  n <= 0 ->
  browser_click h ("element:" ++ rest) srv = (inr (Failed (ElementNumberNotFound n)), srv)
  /\ browser_type h ("element:" ++ rest) text srv = (inr (Failed (ElementNumberNotFound n)), srv).
Proof.
  intros Hint Hn.
  assert (resolve_selector h (last_elements srv) ("element:" ++ rest)
          = inr (Refuse (ElementNumberNotFound n))) as Hrefuse.
  { unfold resolve_selector. rewrite startswith_element_app, split_element, Hint.
    destruct (Z.ltb_spec 0 n); [lia | reflexivity]. }
  unfold browser_click, browser_type, bind, gets, lift. rewrite Hrefuse. split; reflexivity.
Qed.

End MoreTools.

(** ** The number on an overlay and the reference that uses it *)

Section Numbers.

Lemma pretty_N_char_digit (d : N) :
  (d < 10)%N ->
  is_digit (pretty_N_char d) = true /\ digit_value (pretty_N_char d) = Z.of_N d.
Proof.
  intros Hd.
  assert (d = 0 \/ d = 1 \/ d = 2 \/ d = 3 \/ d = 4 \/ d = 5 \/ d = 6 \/ d = 7 \/ d = 8 \/ d = 9)%N
    as Hcases by lia.
  repeat destruct Hcases as [->|Hcases]; try subst d; vm_compute; auto.
Qed.

Lemma digit_is_plain (c : ascii) :
  is_digit c = true ->
  is_space c = false /\ Ascii.eqb c ":" = false /\ Ascii.eqb c "-" = false
  /\ Ascii.eqb c "+" = false.
Proof.
  destruct c as [[] [] [] [] [] [] [] []]; vm_compute; intros; try discriminate; auto.
Qed.

Lemma pretty_N_go_digits_only (x : N) (s : string) :
  digits_only s = true -> digits_only (pretty_N_go x s) = true.
Proof.
  revert s. induction (N.lt_wf_0 x) as [x _ IH]; intros s Hs.
  destruct (decide (x = 0)%N) as [->|Hx]; [by rewrite pretty_N_go_0|].
  rewrite pretty_N_go_step by lia. apply IH.
  - apply N.div_lt; lia.
  - simpl. rewrite Hs.
    by destruct (pretty_N_char_digit (x `mod` 10)%N) as [-> _]; [apply N.mod_lt|].
Qed.

(** Reading back what [pretty] wrote. *)
Lemma digits_pretty_N_go (x : N) (s : string) :
  (0 < x)%N -> digits (pretty_N_go x s) = more_digits false (Z.of_N x) s.
Proof.
  revert s. induction (N.lt_wf_0 x) as [x _ IH]; intros s Hx.
  rewrite pretty_N_go_step by done.
  destruct (pretty_N_char_digit (x `mod` 10)%N) as [Hdigit Hvalue]; [by apply N.mod_lt|].
  destruct (decide (x `div` 10 = 0)%N) as [Hsmall|Hbig].
  - rewrite Hsmall, pretty_N_go_0. simpl. rewrite Hdigit, Hvalue.
    f_equal. pose proof (N.div_mod x 10 ltac:(done)) as Hsplit.
    rewrite Hsmall, N.mul_0_r, N.add_0_l in Hsplit. by rewrite <- Hsplit.
  - rewrite IH; [|apply N.div_lt; lia|by apply N.neq_0_lt_0].
    simpl. rewrite Hdigit, Hvalue. f_equal.
    rewrite (N.div_mod x 10 ltac:(done)) at 3.
    rewrite N2Z.inj_add, N2Z.inj_mul. reflexivity.
Qed.

Lemma lstrip_digits (s : string) : digits_only s = true -> lstrip s = s.
Proof.
  destruct s as [|c s]; simpl; [reflexivity|].
  intros [Hc _]%andb_prop. by destruct (digit_is_plain c Hc) as (-> & _).
Qed.

Lemma rstrip_digits (s : string) : digits_only s = true -> rstrip s = s.
Proof.
  induction s as [|c s IH]; simpl; [reflexivity|].
  intros [Hc Hs]%andb_prop. rewrite (IH Hs).
  destruct (digit_is_plain c Hc) as (-> & _). by destruct s.
Qed.

Lemma split_digits (s : string) : digits_only s = true -> split ":" s = [s].
Proof.
  induction s as [|c s IH]; simpl; [reflexivity|].
  intros [Hc Hs]%andb_prop. rewrite (IH Hs).
  by destruct (digit_is_plain c Hc) as (_ & -> & _).
Qed.

Lemma int_of_string_unsigned max_digits (c : ascii) (s : string) :
  is_digit c = true ->
  strip (String c s) = String c s ->
  int_of_string max_digits (String c s) =
  match digits (String c s) with
  | Some n => if within_digit_limit max_digits (String c s) then Some n else None
  | None => None
  end.
Proof.
  intros Hc Hstrip. unfold int_of_string. rewrite Hstrip.
  destruct c as [[] [] [] [] [] [] [] []]; try (vm_compute in Hc; discriminate); reflexivity.
Qed.

(** [int] reads the decimal form of a positive number back as that number
    (within the interpreter's limit on digits). *)
Lemma int_of_string_pretty max_digits (p : positive) :
  within_digit_limit max_digits (pretty (Z.pos p)) = true ->
  int_of_string max_digits (pretty (Z.pos p)) = Some (Z.pos p).
Proof.
  change (pretty (Z.pos p)) with (pretty_N_go (N.pos p) "").
  intros Hlimit.
  pose proof (pretty_N_go_digits_only (N.pos p) "" eq_refl) as Hdigits.
  pose proof (digits_pretty_N_go (N.pos p) "" eq_refl) as Hvalue. simpl in Hvalue.
  assert (strip (pretty_N_go (N.pos p) "") = pretty_N_go (N.pos p) "") as Hstrip.
  { unfold strip. by rewrite (lstrip_digits _ Hdigits), (rstrip_digits _ Hdigits). }
  destruct (pretty_N_go (N.pos p) "") as [|c s] eqn:Hs; [discriminate|].
  pose proof Hdigits as [Hc _]%andb_prop.
  rewrite (int_of_string_unsigned _ c s Hc Hstrip), Hvalue, Hlimit. reflexivity.
Qed.

Lemma enumerate_lookup {A : Type} (start : Z) (l : list A) (i : nat) idx x :
  enumerate start l !! i = Some (idx, x) -> idx = start + Z.of_nat i /\ l !! i = Some x.
Proof.
  revert start i. induction l as [|a l IH]; intros start i; simpl; [by rewrite lookup_nil|].
  destruct i as [|i]; simpl.
  - intros [= <- <-]. split; [lia | reflexivity].
  - intros [-> Hx]%IH. split; [lia | exact Hx].
Qed.

(** The number an element bears -- in the screenshot's listing and, drawn
    by [str(idx)], on its overlay -- is the number that refers to it: a
    click on [element:] followed by that number goes on with the selector of
    that very element. *)
Theorem listed_number_refers_to_its_element h srv registry (i : nat) idx entry target :
  last_elements srv = JArr registry ->
  enumerate 1 registry !! i = Some (idx, JObj entry) ->
  dict_get "selector" entry = Some target ->
  within_digit_limit (max_str_digits h) (pretty idx) = true ->
  browser_click h ("element:" ++ pretty idx) srv = on_cdp (click target) srv.
Proof.
  intros Hregistry [-> Hentry]%enumerate_lookup Htarget Hlimit.
  assert (1 + Z.of_nat i = Z.pos (Pos.of_succ_nat i)) as Hpos by lia.
  rewrite Hpos in *.
  pose proof (pretty_N_go_digits_only (N.pos (Pos.of_succ_nat i)) "" eq_refl) as Hdigits.
  change (pretty_N_go (N.pos (Pos.of_succ_nat i)) "")
    with (pretty (Z.pos (Pos.of_succ_nat i))) in Hdigits.
  unfold browser_click, bind, gets, lift.
  rewrite Hregistry, resolve_selector_reference, (split_digits _ Hdigits). simpl hd.
  rewrite (int_of_string_pretty _ _ Hlimit).
  assert (i < List.length registry)%nat as Hlen by (by apply lookup_lt_Some in Hentry).
  replace ((1 <=? Z.pos (Pos.of_succ_nat i))
           && (Z.pos (Pos.of_succ_nat i) <=? Z.of_nat (List.length registry))) with true
    by (symmetry; apply andb_true_intro; split; [apply Z.leb_le | apply Z.leb_le]; lia).
  replace (Z.to_nat (Z.pos (Pos.of_succ_nat i) - 1)) with i by lia.
  rewrite Hentry. simpl. rewrite Htarget. reflexivity.
Qed.

End Numbers.

(** ** The terminal tools *)

Section Terminal.

Implicit Types (s t command : string) (atoms : list atom) (k : string -> bool).

Lemma append_String (c : ascii) s t : String c s ++ t = String c (s ++ t).
Proof. reflexivity. Qed.

Lemma append_empty t : "" ++ t = t.
Proof. reflexivity. Qed.

Lemma strip_prefix_app p s t r :
  strip_prefix p s = Some r -> strip_prefix p (s ++ t) = Some (r ++ t).
Proof.
  revert s. induction p as [|a p IH]; intros s; simpl.
  - by intros [= ->].
  - destruct s as [|b s]; [discriminate|]. rewrite append_String.
    destruct (Ascii.eqb a b); [apply IH | discriminate].
Qed.

Lemma spaces_then_app k k' s t :
  (forall s', k s' = true -> k' (s' ++ t) = true) ->
  spaces_then k s = true -> spaces_then k' (s ++ t) = true.
Proof.
  intros Hk. induction s as [|c s IH].
  - simpl. rewrite orb_false_r. intros Hempty%Hk. rewrite append_empty in *.
    destruct t; simpl; by rewrite Hempty.
  - intros [Hnow|[Hc Hlater]%andb_prop]%orb_prop.
    + apply Hk in Hnow. rewrite append_String in *. simpl. by rewrite Hnow.
    + rewrite append_String. simpl. rewrite Hc, (IH Hlater). apply orb_true_r.
Qed.

(** A match is not undone by text that follows. *)
Lemma match_atoms_app atoms s t :
  match_atoms atoms s = true -> match_atoms atoms (s ++ t) = true.
Proof.
  revert s. induction atoms as [|[text| |] atoms IH]; intros s; simpl; [reflexivity| | |].
  - destruct (strip_prefix text s) as [r|] eqn:Hr; [|discriminate].
    rewrite (strip_prefix_app _ _ t _ Hr). apply IH.
  - destruct s as [|c s]; [discriminate|]. rewrite append_String.
    intros [Hc Hrest]%andb_prop. rewrite Hc. simpl.
    by apply (spaces_then_app (match_atoms atoms)).
  - by apply (spaces_then_app (match_atoms atoms)).
Qed.

Lemma search_atoms_app atoms s t :
  search_atoms atoms s = true -> search_atoms atoms (s ++ t) = true.
Proof.
  induction s as [|c s IH].
  - simpl. rewrite orb_false_r. intros Hm%(match_atoms_app _ _ t).
    rewrite append_empty in *. destruct t; simpl; by rewrite Hm.
  - intros [Hnow|Hlater]%orb_prop.
    + apply (match_atoms_app _ _ t) in Hnow. rewrite append_String in *. simpl. by rewrite Hnow.
    + rewrite append_String. simpl. rewrite (IH Hlater). apply orb_true_r.
Qed.

Lemma search_atoms_before atoms before s :
  search_atoms atoms s = true -> search_atoms atoms (before ++ s) = true.
Proof.
  intros Hs. induction before as [|c before IH]; [exact Hs|].
  rewrite append_String. simpl. rewrite IH. apply orb_true_r.
Qed.

Lemma re_search_within (r : regex) command longer :
  has_substring command longer -> re_search r command = true -> re_search r longer = true.
Proof.
  intros (before & after & ->). unfold re_search. rewrite !existsb_exists.
  intros (atoms & Hin & Hfound). exists atoms. split; [exact Hin|].
  by apply search_atoms_before, search_atoms_app.
Qed.

Lemma first_dangerous_within patterns command longer pattern :
  has_substring command longer ->
  first_dangerous patterns command = Some pattern ->
  exists pattern', first_dangerous patterns longer = Some pattern'.
Proof.
  intros Hsub. induction patterns as [|[p r] patterns IH]; simpl; [discriminate|].
  destruct (re_search r command) eqn:Hfound.
  - rewrite (re_search_within r _ _ Hsub Hfound). eauto.
  - intros Hlater%IH. destruct (re_search r longer); eauto.
Qed.

(** The filter looks for its patterns anywhere in the command: a command
    it refuses stays refused whatever is written before and after it. *)
Theorem unsafe_in_any_context command longer :
  has_substring command longer ->
  fst (_is_command_safe command) = false ->
  fst (_is_command_safe longer) = false.
Proof.
  intros Hsub. unfold _is_command_safe.
  destruct (first_dangerous DANGEROUS_PATTERNS command) as [pattern|] eqn:Hfirst; [|discriminate].
  intros _. destruct (first_dangerous_within _ _ _ _ Hsub Hfirst) as [pattern' ->]. reflexivity.
Qed.

Variable subprocess_run : string -> Z -> process_outcome.

(** [execute_command] hands a command to the shell exactly when the filter
    passes it and the call is no dry run, and then once, as it is and with
    the given timeout; otherwise nothing is run. *)
Theorem execute_command_runs_only_safe command dry_run timeout (shell : Shell) :
  snd (execute_command subprocess_run command dry_run timeout shell)
  = if fst (_is_command_safe command) && negb dry_run
    then (shell ++ [(command, timeout)])%list
    else shell.
Proof.
  unfold execute_command.
  destruct (_is_command_safe command) as [[|] reason]; [|reflexivity].
  destruct dry_run; reflexivity.
Qed.

(** A result that says success comes from a command the filter passed, and
    which either was only validated (dry run) or ran and exited with code
    0; a timeout or any other failure of the run gives no success. *)
Theorem success_means_safe_and_zero command dry_run timeout (shell : Shell) :
  dict_get "success" (fst (execute_command subprocess_run command dry_run timeout shell))
  = Some (JBool true) ->
  fst (_is_command_safe command) = true
  /\ (dry_run = true
      \/ exists stdout stderr, subprocess_run command timeout = Completed 0 stdout stderr).
Proof.
  unfold execute_command.
  destruct (_is_command_safe command) as [[|] reason]; [|discriminate].
  destruct dry_run; [auto|]. simpl.
  destruct (subprocess_run command timeout) as [returncode stdout stderr| |text]; try discriminate.
  simpl. intros [= Hzero%Z.eqb_eq]. subst. eauto.
Qed.

(** The verdict [natural_to_command] returns with a command is the
    filter's, the one a dry run of [execute_command] gives for that same
    command; a command judged unsafe comes with the reason and without an
    explanation, one judged safe with no reason. *)
Theorem natural_to_command_verdict h instruction context answer timeout (shell : Shell) :
  natural_to_command h instruction context = inr answer ->
  exists command safe,
    dict_get "command" answer = Some (JStr command)
    /\ dict_get "safe" answer = Some (JBool safe)
    /\ safe = fst (_is_command_safe command)
    /\ dict_get "success" (fst (execute_command subprocess_run command true timeout shell))
       = Some (JBool safe)
    /\ (safe = true -> dict_get "reason" answer = Some JNull)
    /\ (safe = false ->
        dict_get "explanation" answer = Some JNull
        /\ exists text, dict_get "reason" answer = Some (JStr text)).
Proof.
  unfold natural_to_command.
  destruct (chat_content h _) as [e|content]; [discriminate|].
  destruct (str_strip content) as [e|command]; [discriminate|].
  unfold execute_command.
  destruct (_is_command_safe command) as [[|] reason] eqn:Hsafe.
  - destruct (explain_command h command) as [e|explanation]; [discriminate|].
    intros [= <-]. exists command, true. rewrite ?Hsafe. simpl.
    do 5 (split; [reflexivity|]). discriminate.
  - intros [= <-]. exists command, false. rewrite ?Hsafe. simpl.
    do 4 (split; [reflexivity|]). split; [discriminate|].
    intros _. split; [reflexivity|].
    unfold _is_command_safe in Hsafe.
    destruct (first_dangerous DANGEROUS_PATTERNS command); [|discriminate].
    injection Hsafe as <-. eauto.
Qed.

End Terminal.

(** ** The further properties at concrete connections and servers *)


(** A malformed frame, then a call whose reply does arrive. *)
Lemma malformed_frame_ends_listening_witness :
  exists c',
    Malformed ∈ [Malformed]
    /\ run (_listen [Malformed] (connected [[reply_frame 1 []]])) [Allocate 1; Suspend; GiveUp 1] c'
    /\ listening c' = false
    /\ events c' = [].
Proof.
  assert (Malformed ∈ [Malformed]) as Hin by apply list_elem_of_here.
  assert (exists c', run (_listen [Malformed] (connected [[reply_frame 1 []]]))
                         [Allocate 1; Suspend; GiveUp 1] c') as [c' Hrun].
  { eexists.
    eapply run_step; [by apply (step_allocate_at _ 1 "Page.reload" None)|].
    eapply run_step; [apply step_suspend|].
    eapply run_step; [apply step_give_up|]. apply run_done. }
  exists c'. split; [exact Hin|]. split; [exact Hrun|].
  destruct (malformed_frame_ends_listening [Malformed] (connected [[reply_frame 1 []]]) _ c'
              Hin Hrun) as (Hdead & Hevents & _).
  split; [exact Hdead | exact Hevents].
Defined.

Lemma unanswered_call_times_out_witness :
  responses (connected []) !! int_key (message_id (connected []) + 1) = None
  /\ Forall (quiet (int_key (message_id (connected []) + 1))) (take 100 (ws_incoming (connected [])))
  /\ fst (send_command "Page.reload" None (connected []))
     = inl (TimeoutError ("No response for " ++ "Page.reload")).
Proof.
  assert (responses (connected []) !! int_key (message_id (connected []) + 1) = None) as Hnone
    by apply lookup_empty.
  assert (Forall (quiet (int_key (message_id (connected []) + 1)))
            (take 100 (ws_incoming (connected [])))) as Hquiet by constructor.
  split; [exact Hnone|]. split; [exact Hquiet|].
  apply (unanswered_call_times_out "Page.reload" None (connected []) Hnone Hquiet).
Defined.

Lemma reply_during_last_sleep_is_missed_witness :
  fst (send_command "Page.reload" None (connected too_late))
  = inl (TimeoutError ("No response for " ++ "Page.reload"))
  /\ responses (snd (send_command "Page.reload" None (connected too_late)))
       !! int_key (message_id (connected too_late) + 1) = Some late_reply.
Proof.
  apply (reply_during_last_sleep_is_missed "Page.reload" None (connected too_late) late_reply []).
  - reflexivity.
  - apply lookup_empty.
  - reflexivity.
  - reflexivity.
Defined.

Lemma returned_reply_is_removed_witness :
  send_command "Runtime.evaluate" (evaluate_params "1+1") (connected evaluate_value_replies)
  = (inr (JObj [("id", JInt 1); ("result", JObj [("value", JInt 2)])]),
     snd (send_command "Runtime.evaluate" (evaluate_params "1+1")
            (connected evaluate_value_replies)))
  /\ responses (snd (send_command "Runtime.evaluate" (evaluate_params "1+1")
                       (connected evaluate_value_replies)))
       !! int_key (message_id (snd (send_command "Runtime.evaluate" (evaluate_params "1+1")
                                      (connected evaluate_value_replies)))) = None.
Proof.
  assert (send_command "Runtime.evaluate" (evaluate_params "1+1") (connected evaluate_value_replies)
          = (inr (JObj [("id", JInt 1); ("result", JObj [("value", JInt 2)])]),
             snd (send_command "Runtime.evaluate" (evaluate_params "1+1")
                    (connected evaluate_value_replies)))) as Hcall.
  { vm_compute. reflexivity. }
  split; [exact Hcall|].
  apply (returned_reply_is_removed _ _ _ _ _ Hcall).
Defined.

Lemma unresolved_selector_stops_the_action_witness :
  query_selector (JStr "#gone") (connected missing_replies)
  = (inr JNull, snd (query_selector (JStr "#gone") (connected missing_replies)))
  /\ truthy JNull = false
  /\ click (JStr "#gone") (connected missing_replies)
     = (inr (Failed (ElementNotFound (JStr "#gone"))),
        snd (query_selector (JStr "#gone") (connected missing_replies))).
Proof.
  assert (query_selector (JStr "#gone") (connected missing_replies)
          = (inr JNull, snd (query_selector (JStr "#gone") (connected missing_replies)))) as Hquery.
  { vm_compute. reflexivity. }
  split; [exact Hquery|]. split; [reflexivity|].
  apply (unresolved_selector_stops_the_action (JStr "#gone") "" _ JNull _ Hquery eq_refl).
Defined.

Lemma click_presses_then_releases_witness :
  click (JStr "#go") (connected (click_replies turned_quad))
  = (inr (Succeeded [("success", JBool true); ("selector", JStr "#go")]),
     snd (click (JStr "#go") (connected (click_replies turned_quad))))
  /\ exists node_id c1 box x y,
       query_selector (JStr "#go") (connected (click_replies turned_quad)) = (inr node_id, c1)
       /\ half_sum box 0 2 x
       /\ half_sum box 1 5 y
       /\ ws_sent (snd (click (JStr "#go") (connected (click_replies turned_quad)))) =
          (ws_sent c1 ++
           [JObj [("id", JInt (message_id c1 + 1)); ("method", JStr "DOM.getBoxModel");
                  ("params", JObj [("nodeId", node_id)])];
            JObj [("id", JInt (message_id c1 + 2)); ("method", JStr "Input.dispatchMouseEvent");
                  ("params", JObj [("type", JStr "mousePressed"); ("x", x); ("y", y);
                                   ("button", JStr "left"); ("clickCount", JInt 1)])];
            JObj [("id", JInt (message_id c1 + 3)); ("method", JStr "Input.dispatchMouseEvent");
                  ("params", JObj [("type", JStr "mouseReleased"); ("x", x); ("y", y);
                                   ("button", JStr "left"); ("clickCount", JInt 1)])]])%list.
Proof.
  assert (click (JStr "#go") (connected (click_replies turned_quad))
          = (inr (Succeeded [("success", JBool true); ("selector", JStr "#go")]),
             snd (click (JStr "#go") (connected (click_replies turned_quad))))) as Hclick.
  { vm_compute. reflexivity. }
  split; [exact Hclick|].
  destruct (click_presses_then_releases _ _ _ _ Hclick)
    as (node_id & c1 & reply & c2 & r & model & box & x & y
        & Hquery & _ & _ & _ & _ & Hx & Hy & Hsent & _).
  exists node_id, c1, box, x, y. auto.
Defined.

(** Both commands answered: the reply to the first is returned, and the
    two frames are on the wire. *)
Lemma navigate_returns_first_reply_witness :
  fst (navigate "https://example.test" (connected navigate_replies))
  = inr (JObj [("id", JInt 1); ("result", JObj [("frameId", JStr "F1")])])
  /\ ws_sent (snd (navigate "https://example.test" (connected navigate_replies)))
     = [JObj [("id", JInt 1); ("method", JStr "Page.navigate");
              ("params", JObj [("url", JStr "https://example.test")])];
        JObj [("id", JInt 2); ("method", JStr "Page.loadEventFired"); ("params", JObj [])]].
Proof.
  pose proof (navigate_returns_first_reply "https://example.test" (connected navigate_replies)
                _ _ (surjective_pairing _)) as Hnavigate.
  destruct (send_command "Page.navigate" (Some [("url", JStr "https://example.test")])
              (connected navigate_replies)) as [[e|result] c1] eqn:Hfirst.
  { vm_compute in Hfirst. discriminate. }
  destruct Hnavigate as (_ & Hwire & Hreturn).
  split; [|exact Hwire].
  destruct (fst (navigate "https://example.test" (connected navigate_replies))) as [e|returned].
  - exfalso. destruct (send_command "Page.loadEventFired" None c1) as [[e'|reply] c2] eqn:Hsecond.
    + vm_compute in Hfirst. injection Hfirst as _ <-. vm_compute in Hsecond. discriminate.
    + discriminate.
  - destruct Hreturn as [-> _]. vm_compute in Hfirst. injection Hfirst as <- _. reflexivity.
Defined.

Lemma full_page_capture_requests_witness :
  exists shot,
    screenshot picture_host true false (connected full_page_replies)
    = (inr shot, snd (screenshot picture_host true false (connected full_page_replies)))
    /\ exists layout size,
         fst (send_command "Page.getLayoutMetrics" None (connected full_page_replies)) = inr layout
         /\ getitem layout "result" = inr (JObj [("contentSize", size)])
         /\ exists width height,
              getitem size "width" = inr width
              /\ getitem size "height" = inr height
              /\ ws_sent (snd (screenshot picture_host true false (connected full_page_replies))) =
                 [JObj [("id", JInt 1); ("method", JStr "Page.getLayoutMetrics");
                        ("params", JObj [])];
                  JObj [("id", JInt 2); ("method", JStr "Emulation.setDeviceMetricsOverride");
                        ("params", JObj [("width", width); ("height", height);
                                         ("deviceScaleFactor", JInt 1); ("mobile", JBool false)])];
                  JObj [("id", JInt 3); ("method", JStr "Page.captureScreenshot");
                        ("params", JObj [])]].
Proof.
  assert (screenshot picture_host true false (connected full_page_replies)
          = (inr (blank PNG, JArr []),
             snd (screenshot picture_host true false (connected full_page_replies)))) as Hshot.
  { vm_compute. reflexivity. }
  destruct (full_page_capture_requests picture_host false _ _ _ Hshot)
    as (layout & c1 & r & size & width & height & Hlayout & Hr & Hsize & Hwidth & Hheight & Hsent).
  exists (blank PNG, JArr []). split; [exact Hshot|].
  exists layout, size. split; [by rewrite Hlayout|].
  split.
  - vm_compute in Hlayout. injection Hlayout as <- _.
    vm_compute in Hr. injection Hr as <-.
    vm_compute in Hsize. injection Hsize as <-. reflexivity.
  - exists width, height. split; [exact Hwidth|]. split; [exact Hheight | exact Hsent].
Defined.

Lemma network_activity_witness :
  Forall plain_event (events logged)
  /\ get_network_activity logged = (inr (JArr [network_event]), logged).
Proof.
  assert (Forall plain_event (events logged)) as Hplain.
  { repeat (constructor; [exact I|]). constructor. }
  split; [exact Hplain|].
  apply (network_activity_is_the_network_events logged Hplain).
Defined.

(** A frame that is a JSON list is logged; the queries then fail. *)
Lemma logged_non_object_witness :
  JArr [] ∈ events (_listen [Text (JArr [])] (connected []))
  /\ is_object (JArr []) = false
  /\ fst (get_network_activity (_listen [Text (JArr [])] (connected []))) = inl AttributeError
  /\ fst (get_console_messages (_listen [Text (JArr [])] (connected []))) = inl AttributeError.
Proof.
  assert (JArr [] ∈ events (_listen [Text (JArr [])] (connected []))) as Hin
    by apply list_elem_of_here.
  split; [exact Hin|]. split; [reflexivity|].
  apply (logged_non_object_breaks_the_queries (JArr []) _ [] _ Hin eq_refl (run_done _)).
Defined.

(** No reply ever comes: the click times out and the tool raises. *)
Lemma unwrapped_tools_raise_witness :
  resolve_selector picture_host (last_elements (server_with_three [])) "a.nav"
  = inr (Proceed (JStr "a.nav"))
  /\ click (JStr "a.nav") (cdp (server_with_three []))
     = (inl (TimeoutError "No response for DOM.getDocument"),
        snd (click (JStr "a.nav") (cdp (server_with_three []))))
  /\ fst (browser_click picture_host "a.nav" (server_with_three []))
     = inl (TimeoutError "No response for DOM.getDocument").
Proof.
  assert (click (JStr "a.nav") (cdp (server_with_three []))
          = (inl (TimeoutError "No response for DOM.getDocument"),
             snd (click (JStr "a.nav") (cdp (server_with_three []))))) as Hclick.
  { vm_compute. reflexivity. }
  split; [reflexivity|]. split; [exact Hclick|].
  destruct (unwrapped_tools_raise picture_host "a.nav" (JStr "a.nav") "" "" (server_with_three [])
              (TimeoutError "No response for DOM.getDocument")
              (snd (click (JStr "a.nav") (cdp (server_with_three [])))) eq_refl) as [Hraise _].
  apply Hraise. exact Hclick.
Defined.

(** The file cannot be written: the tool fails, the registry of three is
    gone; no reply comes: the tool fails, the registry of three stays. *)
Lemma failed_screenshot_and_registry_witness :
  browser_screenshot read_only_host false None false false (server_with_three capture_replies)
  = (inr (Failed (Caught (EnvError "Read-only file system"))),
     {| cdp := snd (screenshot read_only_host false false (connected capture_replies));
        last_elements := JArr [] |})
  /\ browser_screenshot picture_host false None false false (server_with_three [])
     = (inr (Failed (Caught (TimeoutError "No response for Page.captureScreenshot"))),
        {| cdp := snd (screenshot picture_host false false (connected []));
           last_elements := JArr three_elements |}).
Proof.
  split.
  - destruct (failed_screenshot_and_registry read_only_host false None false false
                (server_with_three capture_replies) (EnvError "Read-only file system")
                (snd (screenshot read_only_host false false (connected capture_replies))))
      as [Hafter _].
    apply (Hafter (blank PNG) (JArr [])); [vm_compute; reflexivity | reflexivity].
  - destruct (failed_screenshot_and_registry picture_host false None false false
                (server_with_three []) (TimeoutError "No response for Page.captureScreenshot")
                (snd (screenshot picture_host false false (connected []))))
      as [_ Hbefore].
    apply Hbefore. vm_compute. reflexivity.
Defined.

Lemma nonpositive_reference_witness :
  int_of_string (max_str_digits picture_host) (hd "" (split ":" "0")) = Some 0
  /\ 0 <= 0
  /\ browser_click picture_host ("element:" ++ "0") (server_with_three [])
     = (inr (Failed (ElementNumberNotFound 0)), server_with_three []).
Proof.
  split; [reflexivity|]. split; [lia|].
  apply (nonpositive_reference_is_not_found picture_host "0" 0 "" (server_with_three []) eq_refl).
  lia.
Defined.

Lemma listed_number_witness :
  enumerate 1 three_elements !! 1%nat = Some (2, element "button" "Go" "button#go" 200 300)
  /\ browser_click picture_host ("element:" ++ pretty 2) (server_with_three [])
     = on_cdp (click (JStr "button#go")) (server_with_three []).
Proof.
  split; [reflexivity|].
  apply (listed_number_refers_to_its_element picture_host (server_with_three []) three_elements
           1 2
           [("tag", JStr "button"); ("type", JNull); ("text", JStr "Go");
            ("x", JNum 200); ("y", JNum 300); ("width", JNum 80); ("height", JNum 24);
            ("selector", JStr "button#go")]
           (JStr "button#go")); reflexivity.
Defined.

(** Whatever surrounds [mkfs], the command is refused. *)
Lemma unsafe_in_any_context_witness :
  has_substring "mkfs" "sudo mkfs.ext4 /dev/sdb1"
  /\ fst (_is_command_safe "mkfs") = false
  /\ fst (_is_command_safe "sudo mkfs.ext4 /dev/sdb1") = false.
Proof.
  assert (has_substring "mkfs" "sudo mkfs.ext4 /dev/sdb1") as Hsub.
  { exists "sudo ", ".ext4 /dev/sdb1". reflexivity. }
  split; [exact Hsub|]. split; [reflexivity|].
  apply (unsafe_in_any_context "mkfs" _ Hsub eq_refl).
Defined.

Lemma success_means_safe_witness :
  dict_get "success" (fst (execute_command obliging_shell "ls -la" false 30 []))
  = Some (JBool true)
  /\ fst (_is_command_safe "ls -la") = true.
Proof.
  split; [reflexivity|].
  apply (success_means_safe_and_zero obliging_shell "ls -la" false 30 [] eq_refl).
Defined.

(** The model answers with a command that wipes the disk. *)
Lemma natural_to_command_witness :
  natural_to_command (chat_host " rm -rf / ") "free some space" None
  = inr [("command", JStr "rm -rf /"); ("safe", JBool false);
         ("reason", JStr "Matches dangerous pattern: rm\s+-rf\s+/"); ("explanation", JNull)]
  /\ exists command safe,
       dict_get "command" [("command", JStr "rm -rf /"); ("safe", JBool false);
                           ("reason", JStr "Matches dangerous pattern: rm\s+-rf\s+/");
                           ("explanation", JNull)] = Some (JStr command)
       /\ safe = fst (_is_command_safe command)
       /\ dict_get "success" (fst (execute_command obliging_shell command true 30 []))
          = Some (JBool safe).
Proof.
  assert (natural_to_command (chat_host " rm -rf / ") "free some space" None
          = inr [("command", JStr "rm -rf /"); ("safe", JBool false);
                 ("reason", JStr "Matches dangerous pattern: rm\s+-rf\s+/");
                 ("explanation", JNull)]) as Hanswer.
  { vm_compute. reflexivity. }
  split; [exact Hanswer|].
  destruct (natural_to_command_verdict obliging_shell _ _ _ _ 30 [] Hanswer)
    as (command & safe & Hcommand & _ & Hsafe & Hdry & _).
  exists command, safe. auto.
Defined.
